(** * Vote_Bot: the poll store ([db.py]) and the [/vote] handler ([bot.py])

    A shallow embedding of the vote persistence layer.  The SQLite file is a
    value of type [database]; every function of [db.py] opens a connection,
    executes SQL statements on it and closes it, which is modelled by a small
    state-and-error monad over [connection].

    Modelling conventions.
    - Python [int] is [Z]; a parameter bound to a statement must fit the
      64-bit INTEGER of SQLite, else the sqlite3 module raises
      [OverflowError], and a [str] parameter must encode as UTF-8, else it
      raises [UnicodeEncodeError] (a [ValueError]).
    - Python [str] is a list of Unicode code points ([list N]).
    - A table with an INTEGER PRIMARY KEY is a [gmap] from the key to the
      remaining columns; [ORDER BY] is an explicit sort.
    - The clock read by [datetime('now')] is an argument of [cast_vote].
    - Storage faults (I/O errors, locking) and the size limits of the
      interpreter and of SQLite on one string are outside the model. *)

From Stdlib Require Import ZArith NArith String Ascii List Lia Decimal.
From stdpp Require Import base decidable option list list_numbers sorting gmap fin_maps strings.

Local Open Scope string_scope.
Local Open Scope list_scope.
Local Open Scope Z_scope.

(** ** Python strings *)

Module PyStr.

(** [str.isspace] for one code point, the table of CPython's
    [_PyUnicode_IsWhitespace]: U+0009..000D, U+001C..0020, U+0085, U+00A0,
    U+1680, U+2000..200A, U+2028, U+2029, U+202F, U+205F, U+3000. *)
Definition is_space (c : N) : bool :=
  ((9 <=? c) && (c <=? 13) || (28 <=? c) && (c <=? 32)
   || (c =? 133) || (c =? 160) || (c =? 5760)
   || (8192 <=? c) && (c <=? 8202)
   || (c =? 8232) || (c =? 8233) || (c =? 8239) || (c =? 8287)
   || (c =? 12288))%N.

Fixpoint lstrip (s : list N) : list N :=
  match s with
  | [] => []
  | c :: s' => if is_space c then lstrip s' else s
  end.

Definition rstrip (s : list N) : list N := rev (lstrip (rev s)).

(** [s.strip()] *)
Definition strip (s : list N) : list N := rstrip (lstrip s).

(** Truth value of a string: [bool(s)]. *)
Definition truthy (s : list N) : bool :=
  match s with [] => false | _ => true end.

(** An ASCII literal as a Python string. *)
Definition py (s : string) : list N :=
  map N_of_ascii (list_ascii_of_string s).

End PyStr.

Import PyStr.

(** ** The database file *)

Record column_def := ColumnDef {
  col_name : string;
  col_type : string;
  col_primary_key : bool;
  col_not_null : bool;
  col_default : option string
}.

Record foreign_key_def := ForeignKeyDef {
  fk_column : string;
  fk_parent_table : string;
  fk_parent_column : string
}.

Record table_def := TableDef {
  td_columns : list column_def;
  td_foreign_keys : list foreign_key_def
}.

(** A row of [votes], without its key [user_id]. *)
Record vote_row := VoteRow {
  v_option_id : Z;
  v_created_at : string
}.

Record options_table := OptionsTable {
  ot_def : table_def;
  ot_rows : gmap Z (list N)          (* option_id -> label *)
}.

Record votes_table := VotesTable {
  vt_def : table_def;
  vt_rows : gmap Z vote_row          (* user_id -> (option_id, created_at) *)
}.

(** [None] stands for a table that does not exist. *)
Record database := Database {
  tbl_vote_options : option options_table;
  tbl_votes : option votes_table
}.

Definition empty_database : database :=
  {| tbl_vote_options := None; tbl_votes := None |}.

(** [SCHEMA_SQL]: [CREATE TABLE IF NOT EXISTS vote_options (...)]. *)
Definition SCHEMA_vote_options : table_def :=
  {| td_columns :=
       [ ColumnDef "option_id" "INTEGER" true false None;
         ColumnDef "label" "TEXT" false true None ];
     td_foreign_keys := [] |}.

(** [SCHEMA_SQL]: [CREATE TABLE IF NOT EXISTS votes (...)]. *)
Definition SCHEMA_votes : table_def :=
  {| td_columns :=
       [ ColumnDef "user_id" "INTEGER" true false None;
         ColumnDef "option_id" "INTEGER" false true None;
         ColumnDef "created_at" "TEXT" false true (Some "datetime('now')") ];
     td_foreign_keys :=
       [ ForeignKeyDef "option_id" "vote_options" "option_id" ] |}.

(** The [CREATE TABLE votes (...)] statement inside [clear_votes]. *)
Definition CLEAR_votes : table_def :=
  {| td_columns :=
       [ ColumnDef "user_id" "INTEGER" true false None;
         ColumnDef "option_id" "INTEGER" false true None;
         ColumnDef "created_at" "TEXT" false true (Some "datetime('now')") ];
     td_foreign_keys :=
       [ ForeignKeyDef "option_id" "vote_options" "option_id" ] |}.

(** ** Errors *)

Inductive error :=
| ValueError (msg : string)
| OperationalError (msg : string)       (* sqlite3.OperationalError *)
| IntegrityError (msg : string)         (* sqlite3.IntegrityError *)
| OverflowError (msg : string)
| UnicodeEncodeError (object : list N) (start stop : nat).
    (* encoding 'utf-8', reason 'surrogates not allowed' *)

Definition result (A : Type) : Type := error + A.

Definition E_too_few_options : error :=
  ValueError "At least 2 non-empty vote options are required.".
Definition E_unique_votes : error :=
  IntegrityError "UNIQUE constraint failed: votes.user_id".
Definition E_unique_vote_options : error :=
  IntegrityError "UNIQUE constraint failed: vote_options.option_id".
Definition E_foreign_key : error :=
  IntegrityError "FOREIGN KEY constraint failed".
Definition E_no_votes : error :=
  OperationalError "no such table: votes".
Definition E_no_vote_options : error :=
  OperationalError "no such table: vote_options".
Definition E_no_parent : error :=
  OperationalError "no such table: main.vote_options".
Definition E_votes_exists : error :=
  OperationalError "table votes already exists".
Definition E_overflow : error :=
  OverflowError "Python int too large to convert to SQLite INTEGER".
Definition E_nested_begin : error :=
  OperationalError "cannot start a transaction within a transaction".

(** ** Connections *)

(** [durable] is the committed content of the file, [working] what the
    statements of this connection see.  Closing a connection discards
    [working]. *)
Record connection := Connection {
  durable : database;
  working : database;
  foreign_keys : bool;
  in_transaction : bool
}.

Definition connect (d : database) : connection :=
  {| durable := d; working := d; foreign_keys := false; in_transaction := false |}.

(** Computations that thread a state and may raise. *)
Definition prog (S A : Type) : Type := S → result A * S.

Definition ret {S A} (a : A) : prog S A := λ s, (inr a, s).

Definition raise {S A} (e : error) : prog S A := λ s, (inl e, s).

Definition bind {S A B} (m : prog S A) (k : A → prog S B) : prog S B :=
  λ s, match m s with
       | (inl e, s') => (inl e, s')
       | (inr a, s') => k a s'
       end.

(** [try: m  except Exception: h] *)
Definition try_except {S A} (m : prog S A) (h : error → prog S A) : prog S A :=
  λ s, match m s with
       | (inl e, s') => h e s'
       | (inr a, s') => (inr a, s')
       end.

Declare Scope prog_scope.
Delimit Scope prog_scope with prog.
Notation "x <- m ;; k" := (bind m (λ x, k))
  (at level 100, m at next level, right associativity) : prog_scope.
Notation "m ;; k" := (bind m (λ _, k))
  (at level 100, right associativity) : prog_scope.
Local Open Scope prog_scope.

(** Statements executed on one connection. *)
Definition sql (A : Type) : Type := prog connection A.

(** Calls of the store; the state is the database file. *)
Definition api (A : Type) : Type := prog database A.

(** [async with aiosqlite.connect(db_path) as db: ...]: run the body on a
    fresh connection and close it; only committed changes reach the file. *)
Definition with_connection {A} (body : sql A) : api A :=
  λ d, let '(r, c) := body (connect d) in (r, durable c).

(** Statements that change rows.  The sqlite3 module opens a transaction
    before the first of them; a failing statement changes nothing. *)
Definition dml (stmt : bool → database → result database) : sql unit :=
  λ c, match stmt (foreign_keys c) (working c) with
       | inl e => (inl e, c)
       | inr d' =>
           (inr tt, {| durable := durable c; working := d';
                       foreign_keys := foreign_keys c; in_transaction := true |})
       end.

(** Statements that change the schema.  Outside a transaction they are
    committed at once. *)
Definition ddl (stmt : database → result database) : sql unit :=
  λ c, match stmt (working c) with
       | inl e => (inl e, c)
       | inr d' =>
           (inr tt, {| durable := if in_transaction c then durable c else d';
                       working := d';
                       foreign_keys := foreign_keys c;
                       in_transaction := in_transaction c |})
       end.

Definition query {A} (q : database → result A) : sql A :=
  λ c, (q (working c), c).

(** [PRAGMA foreign_keys = ON;] (without effect inside a transaction). *)
Definition pragma_foreign_keys_on : sql unit :=
  λ c, (inr tt, {| durable := durable c; working := working c;
                   foreign_keys := if in_transaction c then foreign_keys c else true;
                   in_transaction := in_transaction c |}).

(** [BEGIN;] *)
Definition begin : sql unit :=
  λ c, if in_transaction c then (inl E_nested_begin, c)
       else (inr tt, {| durable := durable c; working := working c;
                        foreign_keys := foreign_keys c; in_transaction := true |}).

(** [db.commit()] *)
Definition commit : sql unit :=
  λ c, (inr tt, {| durable := working c; working := working c;
                   foreign_keys := foreign_keys c; in_transaction := false |}).

(** ** Parameters of a statement *)

(** The values of a 64-bit signed integer. *)
Definition int64 (n : Z) : bool :=
  (-9223372036854775808 <=? n) && (n <=? 9223372036854775807).

(** Binding a Python [int]. *)
Definition bind_int (n : Z) : result Z :=
  if int64 n then inr n else inl E_overflow.

Definition is_surrogate (c : N) : bool := ((55296 <=? c) && (c <=? 57343))%N.

(** Length of the run of surrogates at the head of [s]. *)
Fixpoint surrogate_run (s : list N) : nat :=
  match s with
  | c :: s' => if is_surrogate c then S (surrogate_run s') else 0%nat
  | [] => 0%nat
  end.

(** The first run of surrogates of [s], as the positions [start, stop) counted
    from [pos]: where the UTF-8 encoder gives up. *)
Fixpoint find_surrogates (pos : nat) (s : list N) : option (nat * nat) :=
  match s with
  | [] => None
  | c :: s' =>
      if is_surrogate c then Some (pos, S (pos + surrogate_run s'))
      else find_surrogates (S pos) s'
  end.

(** Binding a Python [str]: it is encoded as UTF-8. *)
Definition bind_text (s : list N) : result (list N) :=
  match find_surrogates 0 s with
  | Some (start, stop) => inl (UnicodeEncodeError s start stop)
  | None => inr s
  end.

(** A text without surrogates: it encodes as UTF-8. *)
Definition encodable (s : list N) : Prop := Forall (λ c, is_surrogate c = false) s.

Global Instance encodable_dec (s : list N) : Decision (encodable s).
Proof. unfold encodable. apply _. Defined.

(** The error of the first text that cannot be bound, if any. *)
Fixpoint first_bind_error (texts : list (list N)) : option error :=
  match texts with
  | [] => None
  | t :: rest =>
      match bind_text t with
      | inl e => Some e
      | inr _ => first_bind_error rest
      end
  end.

(** ** SQL statements of [db.py] on the content of the file *)

Definition set_option_rows (t : options_table) (rows : gmap Z (list N)) : options_table :=
  {| ot_def := ot_def t; ot_rows := rows |}.

Definition set_vote_rows (t : votes_table) (rows : gmap Z vote_row) : votes_table :=
  {| vt_def := vt_def t; vt_rows := rows |}.

(** [CREATE TABLE IF NOT EXISTS vote_options (...)] *)
Definition create_vote_options_if_not_exists (def : table_def) (d : database)
  : result database :=
  match tbl_vote_options d with
  | Some _ => inr d
  | None => inr {| tbl_vote_options := Some (OptionsTable def ∅);
                   tbl_votes := tbl_votes d |}
  end.

(** [CREATE TABLE IF NOT EXISTS votes (...)] *)
Definition create_votes_if_not_exists (def : table_def) (d : database)
  : result database :=
  match tbl_votes d with
  | Some _ => inr d
  | None => inr {| tbl_vote_options := tbl_vote_options d;
                   tbl_votes := Some (VotesTable def ∅) |}
  end.

(** [CREATE TABLE votes (...)] *)
Definition create_votes (def : table_def) (d : database) : result database :=
  match tbl_votes d with
  | Some _ => inl E_votes_exists
  | None => inr {| tbl_vote_options := tbl_vote_options d;
                   tbl_votes := Some (VotesTable def ∅) |}
  end.

(** [DROP TABLE IF EXISTS votes;] *)
Definition drop_votes_if_exists (d : database) : result database :=
  inr {| tbl_vote_options := tbl_vote_options d; tbl_votes := None |}.

(** [DELETE FROM votes;]  With foreign keys enforced the statement is
    compiled against the parent table, which must exist. *)
Definition delete_from_votes (fk : bool) (d : database) : result database :=
  match tbl_votes d with
  | None => inl E_no_votes
  | Some vt =>
      match fk, tbl_vote_options d with
      | true, None => inl E_no_parent
      | _, _ => inr {| tbl_vote_options := tbl_vote_options d;
                       tbl_votes := Some (set_vote_rows vt ∅) |}
      end
  end.

(** Some vote row refers to one of the rows of [opts]. *)
Definition referenced (opts : gmap Z (list N)) (vrows : gmap Z vote_row) : bool :=
  existsb (λ uv, bool_decide (is_Some (opts !! v_option_id uv.2))) (map_to_list vrows).

(** [DELETE FROM vote_options;]  With foreign keys enforced, deleting an
    option that a vote still refers to fails. *)
Definition delete_from_vote_options (fk : bool) (d : database) : result database :=
  match tbl_vote_options d with
  | None => inl E_no_vote_options
  | Some ot =>
      let child := match tbl_votes d with Some vt => vt_rows vt | None => ∅ end in
      if fk && referenced (ot_rows ot) child then inl E_foreign_key
      else inr {| tbl_vote_options := Some (set_option_rows ot ∅);
                  tbl_votes := tbl_votes d |}
  end.

(** [INSERT INTO vote_options(option_id, label) VALUES(?, ?);]  The
    statement is compiled, then the label is bound, then the row inserted.
    ([idx] counts the entries of a Python list and always fits 64 bits.) *)
Definition insert_into_vote_options (idx : Z) (label : list N)
    (fk : bool) (d : database) : result database :=
  match tbl_vote_options d with
  | None => inl E_no_vote_options
  | Some ot =>
      match bind_text label with
      | inl e => inl e
      | inr text =>
          match ot_rows ot !! idx with
          | Some _ => inl E_unique_vote_options
          | None => inr {| tbl_vote_options :=
                             Some (set_option_rows ot (<[idx := text]> (ot_rows ot)));
                           tbl_votes := tbl_votes d |}
          end
      end
  end.

(** [INSERT INTO votes(user_id, option_id) VALUES(?, ?);]  [created_at]
    takes its default, the clock reading [now].  The statement is compiled,
    then both ids are bound; the primary key is checked while the row is
    inserted, the foreign key when the statement ends. *)
Definition insert_into_votes (now : string) (user_id option_id : Z)
    (fk : bool) (d : database) : result database :=
  match tbl_votes d with
  | None => inl E_no_votes
  | Some vt =>
      match fk, tbl_vote_options d with
      | true, None => inl E_no_parent
      | _, parent =>
          match bind_int user_id, bind_int option_id with
          | inl e, _ => inl e
          | _, inl e => inl e
          | inr user_id, inr option_id =>
              match vt_rows vt !! user_id with
              | Some _ => inl E_unique_votes
              | None =>
                  let known :=
                    match parent with
                    | Some ot => bool_decide (is_Some (ot_rows ot !! option_id))
                    | None => false
                    end in
                  if fk && negb known then inl E_foreign_key
                  else inr {| tbl_vote_options := tbl_vote_options d;
                              tbl_votes :=
                                Some (set_vote_rows vt
                                        (<[user_id := VoteRow option_id now]>
                                           (vt_rows vt))) |}
              end
          end
      end
  end.

(** Rows in ascending key order ([ORDER BY option_id ASC]). *)
Definition key_le {A} (a b : Z * A) : Prop := a.1 ≤ b.1.

Global Instance key_le_dec {A} (a b : Z * A) : Decision (key_le a b).
Proof. unfold key_le. apply _. Defined.

Definition order_by_key {A} (rows : list (Z * A)) : list (Z * A) :=
  merge_sort key_le rows.

(** [SELECT option_id, label FROM vote_options ORDER BY option_id ASC;] *)
Definition select_options (d : database) : result (list (Z * list N)) :=
  match tbl_vote_options d with
  | None => inl E_no_vote_options
  | Some ot => inr (order_by_key (map_to_list (ot_rows ot)))
  end.

(** [SELECT 1 FROM votes WHERE user_id = ?;] followed by [fetchone()] *)
Definition select_1_from_votes (user_id : Z) (d : database) : result (option Z) :=
  match tbl_votes d with
  | None => inl E_no_votes
  | Some vt =>
      match bind_int user_id with
      | inl e => inl e
      | inr user_id => inr ((λ _, 1) <$> vt_rows vt !! user_id)
      end
  end.

(** [SELECT 1 FROM vote_options WHERE option_id = ?;] followed by [fetchone()] *)
Definition select_1_from_vote_options (option_id : Z) (d : database)
  : result (option Z) :=
  match tbl_vote_options d with
  | None => inl E_no_vote_options
  | Some ot =>
      match bind_int option_id with
      | inl e => inl e
      | inr option_id => inr ((λ _, 1) <$> ot_rows ot !! option_id)
      end
  end.

(** [SELECT label FROM vote_options WHERE option_id = ?;] followed by [fetchone()] *)
Definition select_label (option_id : Z) (d : database) : result (option (list N)) :=
  match tbl_vote_options d with
  | None => inl E_no_vote_options
  | Some ot =>
      match bind_int option_id with
      | inl e => inl e
      | inr option_id => inr (ot_rows ot !! option_id)
      end
  end.

(** [SELECT COUNT( * ) FROM votes;] followed by [fetchone()] *)
Definition select_count_votes (d : database) : result (option Z) :=
  match tbl_votes d with
  | None => inl E_no_votes
  | Some vt => inr (Some (Z.of_nat (size (vt_rows vt))))
  end.

(** ** [get_vote_standings]: the join and the grouping *)

Record VoteStandingRow := MkVoteStandingRow {
  option_id : Z;
  label : list N;
  votes : Z
}.

(** [vote_options o LEFT JOIN votes v ON v.option_id = o.option_id]; a
    joined row keeps [o.option_id], [o.label] and [v.user_id] (NULL for an
    option without votes). *)
Definition left_join (os : list (Z * list N)) (vs : list (Z * vote_row))
  : list ((Z * list N) * option Z) :=
  flat_map
    (λ o, match List.filter (λ v, bool_decide (v_option_id v.2 = o.1)) vs with
          | [] => [(o, None)]
          | ms => map (λ v, (o, Some v.1)) ms
          end)
    os.

(** [COUNT(v.user_id)] over the joined rows of group [k]: NULLs do not count. *)
Definition count_user_id (k : Z * list N) (joined : list ((Z * list N) * option Z)) : Z :=
  Z.of_nat (length (List.filter (λ r, bool_decide (r.1 = k) && bool_decide (is_Some r.2)) joined)).

(** [COALESCE(x, 0)] *)
Definition coalesce (x : option Z) (dflt : Z) : Z := default dflt x.

(** [GROUP BY o.option_id, o.label] with the three selected columns. *)
Definition group_by_option (joined : list ((Z * list N) * option Z))
  : list (Z * (list N * Z)) :=
  map (λ k, (k.1, (k.2, coalesce (Some (count_user_id k joined)) 0)))
      (remove_dups (map fst joined)).

Definition select_standings (d : database) : result (list (Z * (list N * Z))) :=
  match tbl_vote_options d with
  | None => inl E_no_vote_options
  | Some ot =>
      match tbl_votes d with
      | None => inl E_no_votes
      | Some vt =>
          inr (order_by_key
                 (group_by_option
                    (left_join (map_to_list (ot_rows ot)) (map_to_list (vt_rows vt)))))
      end
  end.

(** ** The functions of [db.py] *)

Definition init_db : api unit :=
  with_connection (
    (* executescript(SCHEMA_SQL) *)
    pragma_foreign_keys_on ;;
    ddl (create_vote_options_if_not_exists SCHEMA_vote_options) ;;
    ddl (create_votes_if_not_exists SCHEMA_votes) ;;
    commit).

(** [[l.strip() for l in labels if l and l.strip()]] *)
Definition labels_list (labels : list (list N)) : list (list N) :=
  map PyStr.strip
      (List.filter (λ l, PyStr.truthy l && PyStr.truthy (PyStr.strip l)) labels).

(** [for idx, label in enumerate(labels_list, start=idx): INSERT ...] *)
Fixpoint insert_labels (idx : Z) (labels : list (list N)) : sql unit :=
  match labels with
  | [] => ret tt
  | label :: rest =>
      dml (insert_into_vote_options idx label) ;;
      insert_labels (idx + 1) rest
  end.

Definition set_vote_options (labels : list (list N)) : api Z :=
  let labels_list := labels_list labels in
  if (length labels_list <? 2)%nat then raise E_too_few_options
  else
    with_connection (
      pragma_foreign_keys_on ;;
      begin ;;
      dml delete_from_votes ;;
      dml delete_from_vote_options ;;
      insert_labels 1 labels_list ;;
      commit ;;
      ret (Z.of_nat (length labels_list))).

Definition list_vote_options : api (list (Z * list N)) :=
  with_connection (query select_options).

Definition user_has_voted (user_id : Z) : api bool :=
  with_connection (
    row <- query (select_1_from_votes user_id) ;;
    ret (bool_decide (row ≠ None))).

Definition option_exists (option_id : Z) : api bool :=
  with_connection (
    row <- query (select_1_from_vote_options option_id) ;;
    ret (bool_decide (row ≠ None))).

Definition cast_vote (now : string) (user_id option_id : Z) : api unit :=
  with_connection (
    pragma_foreign_keys_on ;;
    dml (insert_into_votes now user_id option_id) ;;
    commit).

Definition clear_votes : api unit :=
  with_connection (
    ddl drop_votes_if_exists ;;
    ddl (create_votes CLEAR_votes) ;;
    commit).

Definition get_vote_standings : api (list VoteStandingRow) :=
  with_connection (
    pragma_foreign_keys_on ;;
    rows <- query select_standings ;;
    ret (map (λ r, MkVoteStandingRow r.1 r.2.1 r.2.2) rows)).

Definition get_total_votes : api Z :=
  with_connection (
    row <- query select_count_votes ;;
    ret (match row with Some n => n | None => 0 end)).

Definition get_vote_label (option_id : Z) : api (option (list N)) :=
  with_connection (query (select_label option_id)).

(** ** The [/vote] command of [bot.py] *)

Module Bot.

(** The texts passed to [interaction.response.send_message]. *)
Inductive reply :=
| AlreadyVoted                           (* "User has already voted" *)
| NoOptionsYet                           (* "No vote options have been set yet. ..." *)
| InvalidChoice (opts : list (Z * list N)) (* "Invalid choice. Please vote using ..." *)
| SomethingWentWrong                     (* "Sorry, something went wrong recording your vote." *)
| ThankYou.                              (* "Thank you for voting" *)

(** The [try: cast_vote(...) except Exception: ...] block and the final
    message. *)
Definition record_vote (now : string) (user_id choice : Z) : api reply :=
  try_except
    (cast_vote now user_id choice ;;
     ret ThankYou)
    (λ _,
       (* Covers rare race conditions (double-submit) or db errors. *)
       voted <- user_has_voted user_id ;;
       if voted : bool then ret AlreadyVoted else ret SomethingWentWrong).

Definition vote (now : string) (user_id choice : Z) : api reply :=
  init_db ;;
  voted <- user_has_voted user_id ;;
  if voted : bool then ret AlreadyVoted
  else
    known <- option_exists choice ;;
    if negb known then
      opts <- list_vote_options ;;
      match opts with
      | [] => ret NoOptionsYet
      | _ => ret (InvalidChoice opts)
      end
    else record_vote now user_id choice.

End Bot.

(** ** Sequences of calls *)

Inductive call :=
| DefineOptions (labels : list (list N))     (* set_vote_options *)
| ListOptions                                (* list_vote_options *)
| OptionExists (option_id : Z)               (* option_exists *)
| HasVoted (user_id : Z)                     (* user_has_voted *)
| CastVote (now : string) (user_id option_id : Z)  (* cast_vote *)
| ClearVotes                                 (* clear_votes *)
| Standings                                  (* get_vote_standings *)
| TotalVotes                                 (* get_total_votes *)
| LabelOf (option_id : Z).                   (* get_vote_label *)

Inductive value :=
| VNone
| VInt (n : Z)
| VBool (b : bool)
| VOptions (opts : list (Z * list N))
| VStandings (rows : list VoteStandingRow)
| VLabel (l : option (list N)).

Definition returning {A} (f : A → value) (m : api A) : api value :=
  a <- m ;; ret (f a).

Definition exec (c : call) : api value :=
  match c with
  | DefineOptions labels => returning VInt (set_vote_options labels)
  | ListOptions => returning VOptions list_vote_options
  | OptionExists o => returning VBool (option_exists o)
  | HasVoted u => returning VBool (user_has_voted u)
  | CastVote now u o => returning (λ _, VNone) (cast_vote now u o)
  | ClearVotes => returning (λ _, VNone) clear_votes
  | Standings => returning VStandings get_vote_standings
  | TotalVotes => returning VInt get_total_votes
  | LabelOf o => returning VLabel (get_vote_label o)
  end.

(** Every call runs to its end, whether it returns or raises, and the next
    one sees the file it left. *)
Fixpoint run (cs : list call) (d : database) : list (result value) * database :=
  match cs with
  | [] => ([], d)
  | c :: cs' =>
      let '(r, d') := exec c d in
      let '(rs, d'') := run cs' d' in
      (r :: rs, d'')
  end.

(** ** Observations on the file *)

(** Rows of [vote_options] (none when the table is missing). *)
Definition option_rows (d : database) : gmap Z (list N) :=
  match tbl_vote_options d with Some ot => ot_rows ot | None => ∅ end.

(** Rows of [votes] (none when the table is missing). *)
Definition vote_rows (d : database) : gmap Z vote_row :=
  match tbl_votes d with Some vt => vt_rows vt | None => ∅ end.

(** Both tables exist with the definitions of [SCHEMA_SQL]: the state in
    which [init_db] leaves a new file, and every later state. *)
Definition installed (d : database) : Prop :=
  ot_def <$> tbl_vote_options d = Some SCHEMA_vote_options ∧
  vt_def <$> tbl_votes d = Some SCHEMA_votes.

Definition store (opts : gmap Z (list N)) (vts : gmap Z vote_row) : database :=
  {| tbl_vote_options := Some (OptionsTable SCHEMA_vote_options opts);
     tbl_votes := Some (VotesTable SCHEMA_votes vts) |}.

(** I2: every vote refers to an existing option. *)
Definition referential_integrity (d : database) : Prop :=
  ∀ u v, vote_rows d !! u = Some v → is_Some (option_rows d !! v_option_id v).

(** I5: the option ids are [1..n] for some [n]. *)
Definition dense_option_ids (d : database) : Prop :=
  ∃ n : Z, 0 ≤ n ∧ ∀ k, is_Some (option_rows d !! k) ↔ 1 ≤ k ≤ n.

(** The options [idx, idx+1, ...] carrying [labels] in order. *)
Fixpoint enumerate_from (idx : Z) (labels : list (list N)) : gmap Z (list N) :=
  match labels with
  | [] => ∅
  | l :: rest => <[idx := l]> (enumerate_from (idx + 1) rest)
  end.

(** Number of vote rows that refer to option [o]. *)
Definition votes_for (o : Z) (vts : gmap Z vote_row) : Z :=
  Z.of_nat (length (List.filter (λ uv, bool_decide (v_option_id uv.2 = o)) (map_to_list vts))).

(** The [(user_id, option_id)] pairs of the [cast_vote] calls of a run that
    returned. *)
Fixpoint successful_votes (cs : list call) (rs : list (result value)) : list (Z * Z) :=
  match cs, rs with
  | CastVote _ u o :: cs', inr _ :: rs' => (u, o) :: successful_votes cs' rs'
  | _ :: cs', _ :: rs' => successful_votes cs' rs'
  | _, _ => []
  end.

(** Number of distinct users with a successful vote for option [o]. *)
Definition distinct_voters (o : Z) (votes : list (Z * Z)) : Z :=
  Z.of_nat (length (remove_dups (map fst (List.filter (λ uo, bool_decide (uo.2 = o)) votes)))).

Definition is_cast (c : call) : bool :=
  match c with CastVote _ _ _ => true | _ => false end.

Definition is_define (c : call) : bool :=
  match c with DefineOptions _ => true | _ => false end.

Definition is_clear (c : call) : bool :=
  match c with ClearVotes => true | _ => false end.

(** Pure row deletion on [votes], as [DELETE FROM votes] would do it. *)
Definition delete_all_vote_rows (d : database) : database :=
  {| tbl_vote_options := tbl_vote_options d;
     tbl_votes := (λ vt, set_vote_rows vt ∅) <$> tbl_votes d |}.

(** ** Definitions used to state the properties *)

(** The rows [(idx, l0), (idx+1, l1), ...]. *)
Definition numbered (idx : Z) (labels : list (list N)) : list (Z * list N) :=
  zip (seqZ idx (Z.of_nat (length labels))) labels.

(** The labels that remain after trimming whitespace and discarding empty
    entries, in the words of the specification. *)
Definition usable_labels (labels : list (list N)) : list (list N) :=
  List.filter (λ l, bool_decide (l ≠ [])) (map PyStr.strip labels).

(** The option id given to the label at position [a] of the submitted list. *)
Definition option_id_of (labels : list (list N)) (a : nat) : Z :=
  1 + Z.of_nat (length (usable_labels (take a labels))).

(** Sum of the counts of a standings result. *)
Definition total_of (rows : list VoteStandingRow) : Z :=
  foldr (λ r acc, votes r + acc) 0 rows.

(** Sample data. *)
Definition sample_labels : list (list N) := [py "Pizza"; py "  "; py " Tacos "; py "Pizza"].
Definition sample_poll : database :=
  (set_vote_options sample_labels (init_db empty_database).2).2.
Definition sample_voted : database := (cast_vote "2024-01-01 12:00:00" 42 1 sample_poll).2.
Definition sample_calls : list call :=
  [CastVote "2024-01-01 12:00:00" 42 1; CastVote "2024-01-01 12:00:01" 42 2; HasVoted 42;
   CastVote "2024-01-01 12:00:02" 7 3; CastVote "2024-01-01 12:00:03" 8 99;
   CastVote "2024-01-01 12:00:04" 9 1; Standings].

Definition sample_two_votes : database :=
  (cast_vote "2024-01-01 12:00:02" 7 3 sample_voted).2.

(** Calls that neither redefine the options nor clear the votes. *)
Definition keeps_votes (c : call) : bool := negb (is_define c) && negb (is_clear c).

(** The effect of a call on the rows of an installed store. *)
Definition next (c : call) (s : gmap Z (list N) * gmap Z vote_row)
  : gmap Z (list N) * gmap Z vote_row :=
  match c with
  | DefineOptions labels =>
      if (length (labels_list labels) <? 2)%nat then s
      else if bool_decide (Forall encodable (labels_list labels))
           then (enumerate_from 1 (labels_list labels), ∅)
           else s
  | CastVote now u o =>
      if int64 u && int64 o then
        match s.2 !! u with
        | Some _ => s
        | None => if bool_decide (is_Some (s.1 !! o))
                  then (s.1, <[u := VoteRow o now]> s.2) else s
        end
      else s
  | ClearVotes => (s.1, ∅)
  | _ => s
  end.

(** The joined rows of one option. *)
Definition join_block (vs : list (Z * vote_row)) (o : Z * list N)
  : list ((Z * list N) * option Z) :=
  match List.filter (λ v, bool_decide (v_option_id v.2 = o.1)) vs with
  | [] => [(o, None)]
  | ms => map (λ v, (o, Some v.1)) ms
  end.

(** Sum of [f] over a list of keys. *)
Definition sum_of (f : Z → Z) (ks : list Z) : Z := foldr (λ k acc, f k + acc) 0 ks.

(** ** The other commands and helpers of [bot.py] *)

(** Decimal digits, most significant first. *)
Fixpoint digits (u : Decimal.uint) : list N :=
  match u with
  | Decimal.Nil => []
  | Decimal.D0 u' => 48%N :: digits u'
  | Decimal.D1 u' => 49%N :: digits u'
  | Decimal.D2 u' => 50%N :: digits u'
  | Decimal.D3 u' => 51%N :: digits u'
  | Decimal.D4 u' => 52%N :: digits u'
  | Decimal.D5 u' => 53%N :: digits u'
  | Decimal.D6 u' => 54%N :: digits u'
  | Decimal.D7 u' => 55%N :: digits u'
  | Decimal.D8 u' => 56%N :: digits u'
  | Decimal.D9 u' => 57%N :: digits u'
  end.

(** [str(n)] for an [int], as the f-strings format it. *)
Definition str_of_int (n : Z) : list N :=
  match Z.to_int n with
  | Decimal.Pos u => digits u
  | Decimal.Neg u => 45%N :: digits u
  end.

(** Lower-case hexadecimal digits of [c], [width] of them. *)
Fixpoint hex (width : nat) (c : N) : list N :=
  match width with
  | O => []
  | S w =>
      hex w (c / 16)%N
      ++ [let h := (c mod 16)%N in if (h <? 10)%N then (48 + h)%N else (87 + h)%N]
  end.

(** [str(e)] of an exception. *)
Definition str_of_exception (e : error) : list N :=
  match e with
  | ValueError msg | OperationalError msg | IntegrityError msg
  | OverflowError msg => py msg
  | UnicodeEncodeError object start stop =>
      if bool_decide (stop = S start) then
        let bad := nth start object 0%N in
        py "'utf-8' codec can't encode character '"
        ++ (if (bad <=? 255)%N then py "\x" ++ hex 2 bad
            else if (bad <=? 65535)%N then py "\u" ++ hex 4 bad
            else py "\U" ++ hex 8 bad)
        ++ py "' in position " ++ str_of_int (Z.of_nat start)
        ++ py ": surrogates not allowed"
      else
        py "'utf-8' codec can't encode characters in position "
        ++ str_of_int (Z.of_nat start) ++ py "-" ++ str_of_int (Z.of_nat stop - 1)
        ++ py ": surrogates not allowed"
  end.

(** [isinstance(e, ValueError)]: [UnicodeEncodeError] is a [ValueError]. *)
Definition is_ValueError (e : error) : bool :=
  match e with
  | ValueError _ | UnicodeEncodeError _ _ _ => true
  | _ => false
  end.

(** The line feed of ["\n"]. *)
Definition LF : N := 10%N.

(** [sep.join(parts)] *)
Fixpoint join (sep : list N) (parts : list (list N)) : list N :=
  match parts with
  | [] => []
  | [p] => p
  | p :: rest => p ++ sep ++ join sep rest
  end.

Module Commands.

(** What a command passes to [interaction.response.send_message]. *)
Record response := Response {
  content : list N;
  ephemeral : bool
}.

Definition NO_OPTIONS_USE_SETVOTE : list N :=
  py "No vote options have been set yet. Use `/setvote` first.".
Definition NO_OPTIONS_ADMIN : list N :=
  py "No vote options have been set yet. An admin must run `/setvote` first.".

(** [os.getenv("DB_PATH", "votes.db").strip() or "votes.db"]; [env] is the
    value of the variable, [None] when it is not set. *)
Definition _db_path (env : option (list N)) : list N :=
  let raw := strip (default (py "votes.db") env) in
  if truthy raw then raw else py "votes.db".

(** ["\n".join([f"{i}. {label}" for i, label in options])] *)
Definition rendered (options : list (Z * list N)) : list N :=
  join [LF] (map (λ o, str_of_int o.1 ++ py ". " ++ o.2) options).

Definition _format_standings (rows : list VoteStandingRow) (total : Z) : list N :=
  match rows with
  | [] => NO_OPTIONS_USE_SETVOTE
  | _ =>
      let lines :=
        map (λ r, str_of_int (option_id r) ++ py ". " ++ label r
                  ++ py " " ++ [8212%N] ++ py " " ++ str_of_int (votes r)) rows in
      let lines := lines ++ [[]] in
      let lines := lines ++ [py "Total votes: " ++ str_of_int total] in
      join [LF] lines
  end.

(** [try: m  except ValueError as e: h(str(e))]: other exceptions go on. *)
Definition try_except_ValueError {S A} (m : prog S A) (h : list N → prog S A)
  : prog S A :=
  λ s, match m s with
       | (inl e, s') => if is_ValueError e then h (str_of_exception e) s'
                        else (inl e, s')
       | other => other
       end.

(** [labels = [option1, option2]] followed by the optional arguments that
    are not [None]. *)
Definition setvote_labels (option1 option2 : list N)
    (option3 option4 option5 option6 option7 option8 option9 option10
       : option (list N)) : list (list N) :=
  [option1; option2]
  ++ omap id [option3; option4; option5; option6; option7; option8;
              option9; option10].

Definition setvote (option1 option2 : list N)
    (option3 option4 option5 option6 option7 option8 option9 option10
       : option (list N)) : api response :=
  let labels := setvote_labels option1 option2 option3 option4 option5 option6
                  option7 option8 option9 option10 in
  outcome <- try_except_ValueError
               (count <- set_vote_options labels ;; ret (inr count))
               (λ msg, ret (inl msg)) ;;
  match outcome with
  | inl msg => ret (Response msg true)
  | inr count =>
      options <- list_vote_options ;;
      ret (Response
             (py "Vote options set (" ++ str_of_int count
              ++ py "). Existing votes were cleared." ++ [LF; LF] ++ rendered options)
             true)
  end.

(** The reply of [/vote] as text and visibility. *)
Definition render_reply (r : Bot.reply) : response :=
  match r with
  | Bot.AlreadyVoted => Response (py "User has already voted") false
  | Bot.NoOptionsYet => Response NO_OPTIONS_ADMIN true
  | Bot.InvalidChoice opts =>
      Response (py "Invalid choice. Please vote using one of these numbers:"
                ++ [LF; LF] ++ rendered opts) true
  | Bot.SomethingWentWrong =>
      Response (py "Sorry, something went wrong recording your vote.") true
  | Bot.ThankYou => Response (py "Thank you for voting") false
  end.

Definition vote (now : string) (user_id choice : Z) : api response :=
  r <- Bot.vote now user_id choice ;;
  ret (render_reply r).

Definition clearvotes : api response :=
  init_db ;;
  clear_votes ;;
  ret (Response (py "Votes cleared. (Vote options were kept.)") true).

Definition checkvote : api response :=
  init_db ;;
  rows <- get_vote_standings ;;
  total <- get_total_votes ;;
  ret (Response (_format_standings rows total) true).

Definition publishvote : api response :=
  init_db ;;
  rows <- get_vote_standings ;;
  total <- get_total_votes ;;
  ret (Response (_format_standings rows total) false).

Definition showpoll : api response :=
  init_db ;;
  options <- list_vote_options ;;
  match options with
  | [] => ret (Response NO_OPTIONS_ADMIN false)
  | _ => ret (Response (py "Vote options:" ++ [LF; LF] ++ rendered options) false)
  end.

End Commands.

(** Number of line feeds in a text. *)
Definition line_feeds (s : list N) : nat :=
  length (List.filter (λ c, (c =? LF)%N) s).

(** [s == s.strip()] and [s] is not empty. *)
Definition trimmed (s : list N) : Prop := s ≠ [] ∧ strip s = s.

(** Every stored label is trimmed. *)
Definition labels_trimmed (d : database) : Prop :=
  ∀ k l, option_rows d !! k = Some l → trimmed l.

Definition sample_standings : database := (run sample_calls sample_poll).2.


(** * Properties *)

(** ** The calls on an installed store *)

Lemma installed_store d :
  installed d → d = store (option_rows d) (vote_rows d).
Proof.
  destruct d as [[[od orows]|] [[vd vrows]|]]; intros [Ho Hv]; simplify_eq/=.
  reflexivity.
Qed.

Lemma store_installed opts vts : installed (store opts vts).
Proof. split; reflexivity. Qed.

Lemma cast_vote_store now u o opts vts :
  cast_vote now u o (store opts vts) =
    if int64 u && int64 o then
      match vts !! u with
      | Some _ => (inl E_unique_votes, store opts vts)
      | None =>
          if bool_decide (is_Some (opts !! o))
          then (inr (), store opts (<[u := VoteRow o now]> vts))
          else (inl E_foreign_key, store opts vts)
      end
    else (inl E_overflow, store opts vts).
Proof.
  unfold cast_vote, with_connection, bind, dml, pragma_foreign_keys_on, commit; simpl.
  unfold insert_into_votes, bind_int; simpl.
  destruct (int64 u); [|reflexivity]. destruct (int64 o); [|reflexivity]. simpl.
  destruct (vts !! u); [reflexivity|].
  destruct (bool_decide _); reflexivity.
Qed.

Lemma clear_votes_store opts vts :
  clear_votes (store opts vts) = (inr (), store opts ∅).
Proof. reflexivity. Qed.

Lemma referenced_empty opts : referenced opts ∅ = false.
Proof. unfold referenced. by rewrite map_to_list_empty. Qed.

Lemma lookup_enumerate_from idx labels k :
  enumerate_from idx labels !! k =
    if decide (idx ≤ k) then labels !! Z.to_nat (k - idx) else None.
Proof.
  revert idx. induction labels as [|l rest IH]; intros idx; simpl.
  - rewrite lookup_empty. by case_decide.
  - destruct (decide (idx = k)) as [->|Hne].
    + rewrite lookup_insert_eq. rewrite decide_True by lia.
      by replace (k - k) with 0 by lia.
    + rewrite lookup_insert_ne by done. rewrite IH.
      repeat case_decide; try lia; try done.
      replace (Z.to_nat (k - idx)) with (S (Z.to_nat (k - (idx + 1)))) by lia.
      done.
Qed.

Lemma find_surrogates_None pos s :
  find_surrogates pos s = None ↔ encodable s.
Proof.
  unfold encodable. revert pos. induction s as [|c s IH]; intros pos; simpl.
  - split; [constructor|done].
  - destruct (is_surrogate c) eqn:E.
    + split; [done|]. intros H. inv H. congruence.
    + rewrite IH. split; [by constructor|]. intros H. by inv H.
Qed.

Lemma bind_text_encodable s : encodable s → bind_text s = inr s.
Proof.
  intros H%(find_surrogates_None 0). unfold bind_text. by rewrite H.
Qed.

Lemma bind_text_error s e : bind_text s = inl e → ¬ encodable s ∧ is_ValueError e = true.
Proof.
  unfold bind_text. destruct (find_surrogates 0 s) as [[a b]|] eqn:E; [|done].
  intros [= <-]. split; [|done].
  intros H%(find_surrogates_None 0). congruence.
Qed.

Lemma first_bind_error_None texts :
  first_bind_error texts = None ↔ Forall encodable texts.
Proof.
  induction texts as [|t rest IH]; simpl.
  - split; [constructor|done].
  - destruct (bind_text t) as [e|t'] eqn:E.
    + split; [done|]. intros H. inv H.
      apply bind_text_error in E as [E _]. done.
    + rewrite IH. split.
      * intros H. constructor; [|done].
        unfold bind_text in E.
        destruct (find_surrogates 0 t) as [[a b]|] eqn:E'; [done|].
        by apply find_surrogates_None in E'.
      * intros H. by inv H.
Qed.

Lemma first_bind_error_ValueError texts e :
  first_bind_error texts = Some e → is_ValueError e = true.
Proof.
  induction texts as [|t rest IH]; simpl; [done|].
  destruct (bind_text t) as [e'|t'] eqn:E; [|exact IH].
  intros [= <-]. by apply bind_text_error in E as [_ ?].
Qed.

Lemma insert_labels_working labels : ∀ idx c ot,
  tbl_vote_options (working c) = Some ot →
  (∀ k, idx ≤ k → ot_rows ot !! k = None) →
  Forall encodable labels →
  insert_labels idx labels c =
    (inr (),
     if decide (labels = []) then c else
     {| durable := durable c;
        working := {| tbl_vote_options :=
                        Some (set_option_rows ot (enumerate_from idx labels ∪ ot_rows ot));
                      tbl_votes := tbl_votes (working c) |};
        foreign_keys := foreign_keys c;
        in_transaction := true |}).
Proof.
  induction labels as [|l rest IH]; intros idx c ot Hot Hfree Henc; simpl; [done|].
  inv Henc.
  unfold bind, dml at 1, insert_into_vote_options.
  rewrite Hot, bind_text_encodable, Hfree by (done || lia).
  erewrite IH; [| reflexivity | | done]; simpl; cycle 1.
  { intros k Hk. rewrite lookup_insert_ne by lia. apply Hfree. lia. }
  f_equal. unfold set_option_rows; simpl.
  assert (enumerate_from (idx + 1) rest ∪ <[idx:=l]> (ot_rows ot)
          = <[idx:=l]> (enumerate_from (idx + 1) rest) ∪ ot_rows ot) as Hu.
  { rewrite <-insert_union_l. rewrite <-insert_union_r; [done|].
    rewrite lookup_enumerate_from. by rewrite decide_False by lia. }
  destruct rest as [|l' rest']; simpl.
  - do 4 f_equal. simpl in Hu. by rewrite (left_id ∅ (∪)) in Hu.
  - do 4 f_equal. exact Hu.
Qed.

(** The loop stops at the first label that cannot be bound; nothing is
    committed. *)
Lemma insert_labels_error labels : ∀ idx c ot e,
  tbl_vote_options (working c) = Some ot →
  (∀ k, idx ≤ k → ot_rows ot !! k = None) →
  first_bind_error labels = Some e →
  ∃ c', insert_labels idx labels c = (inl e, c') ∧ durable c' = durable c.
Proof.
  induction labels as [|l rest IH]; intros idx c ot e Hot Hfree He; [done|].
  simpl in *. unfold bind, dml at 1, insert_into_vote_options. rewrite Hot.
  destruct (bind_text l) as [e'|t] eqn:E.
  - injection He as <-. by eexists.
  - assert (t = l) as ->.
    { unfold bind_text in E. destruct (find_surrogates 0 l) as [[a b]|]; congruence. }
    rewrite Hfree by lia.
    edestruct (IH (idx + 1)) as (c' & -> & Hd); [reflexivity| |exact He|].
    { simpl. intros k Hk. rewrite lookup_insert_ne by lia. apply Hfree. lia. }
    by exists c'.
Qed.

Lemma with_connection_query {A} (q : database → result A) d :
  with_connection (query q) d = (q d, d).
Proof. reflexivity. Qed.

Lemma set_vote_options_cases labels d :
  set_vote_options labels d =
    if (length (labels_list labels) <? 2)%nat then (inl E_too_few_options, d)
    else match tbl_votes d, tbl_vote_options d with
         | Some vt, Some ot =>
             match first_bind_error (labels_list labels) with
             | Some e => (inl e, d)
             | None =>
                 (inr (Z.of_nat (length (labels_list labels))),
                  {| tbl_vote_options :=
                       Some (set_option_rows ot (enumerate_from 1 (labels_list labels)));
                     tbl_votes := Some (set_vote_rows vt ∅) |})
             end
         | Some _, None => (inl E_no_parent, d)
         | None, _ => (inl E_no_votes, d)
         end.
Proof.
  unfold set_vote_options.
  destruct (Nat.ltb_spec (length (labels_list labels)) 2) as [Hlt|Hge]; [done|].
  unfold with_connection, bind, pragma_foreign_keys_on, begin; simpl.
  unfold dml at 1; simpl. unfold delete_from_votes.
  destruct (tbl_votes d) as [vt|]; [|done].
  destruct (tbl_vote_options d) as [ot|] eqn:Hot; [|done].
  unfold dml at 1; simpl. unfold delete_from_vote_options; simpl.
  rewrite referenced_empty; simpl.
  destruct (first_bind_error (labels_list labels)) as [e|] eqn:He.
  - edestruct (insert_labels_error (labels_list labels) 1) as (c' & -> & Hd);
      [reflexivity| |exact He|].
    { intros k _. apply lookup_empty. }
    by rewrite Hd.
  - apply first_bind_error_None in He.
    erewrite insert_labels_working; [|reflexivity| |done]; simpl; cycle 1.
    { intros k _. apply lookup_empty. }
    rewrite decide_False by (intros E; rewrite E in Hge; simpl in Hge; lia).
    unfold commit, ret; simpl. unfold set_option_rows; simpl.
    by rewrite (right_id ∅ (∪)).
Qed.

Lemma set_vote_options_store labels opts vts :
  (2 ≤ length (labels_list labels))%nat →
  Forall encodable (labels_list labels) →
  set_vote_options labels (store opts vts) =
    (inr (Z.of_nat (length (labels_list labels))),
     store (enumerate_from 1 (labels_list labels)) ∅).
Proof.
  intros Hge Henc%first_bind_error_None. rewrite set_vote_options_cases.
  destruct (Nat.ltb_spec (length (labels_list labels)) 2); [lia|].
  simpl. by rewrite Henc.
Qed.

Lemma exec_store c opts vts :
  (exec c (store opts vts)).2 =
    store (next c (opts, vts)).1 (next c (opts, vts)).2.
Proof.
  destruct c as [labels| |o|u|now u o| | | |o]; simpl; unfold returning, bind.
  - rewrite set_vote_options_cases; simpl. destruct (_ <? _)%nat; [done|].
    destruct (first_bind_error (labels_list labels)) as [e|] eqn:He.
    + rewrite bool_decide_eq_false_2; [done|].
      intros H%first_bind_error_None. congruence.
    + by rewrite bool_decide_eq_true_2 by (by apply first_bind_error_None).
  - done.
  - unfold option_exists, with_connection, bind, query, ret, select_1_from_vote_options;
      simpl. by destruct (bind_int o).
  - unfold user_has_voted, with_connection, bind, query, ret, select_1_from_votes;
      simpl. by destruct (bind_int u).
  - rewrite cast_vote_store. destruct (int64 u && int64 o); [|done].
    destruct (vts !! u); [done|]. by destruct (bool_decide _).
  - done.
  - done.
  - done.
  - unfold get_vote_label, with_connection, query, select_label; simpl.
    by destruct (bind_int o).
Qed.

Lemma exec_installed c d : installed d → installed (exec c d).2.
Proof.
  intros Hd. rewrite (installed_store d Hd), exec_store. apply store_installed.
Qed.

Lemma run_cons c cs d :
  run (c :: cs) d = ((exec c d).1 :: (run cs (exec c d).2).1, (run cs (exec c d).2).2).
Proof. simpl. destruct (exec c d), (run cs _). reflexivity. Qed.

Lemma run_app cs1 cs2 d :
  (run (cs1 ++ cs2) d).2 = (run cs2 (run cs1 d).2).2.
Proof.
  revert d. induction cs1 as [|c cs1 IH]; intros d; [done|].
  rewrite <-app_comm_cons, !run_cons; simpl. apply IH.
Qed.

Lemma run_installed cs d : installed d → installed (run cs d).2.
Proof.
  revert d. induction cs as [|c cs IH]; intros d Hd; [done|].
  rewrite run_cons; simpl. by apply IH, exec_installed.
Qed.

Lemma init_db_empty : (init_db empty_database) = (inr (), store ∅ ∅).
Proof. reflexivity. Qed.

Lemma init_db_installed d : installed d → init_db d = (inr (), d).
Proof. intros Hd. rewrite (installed_store d Hd). reflexivity. Qed.

(** ** Sorting by key *)

Global Instance key_le_trans {A} : Transitive (@key_le A).
Proof. unfold key_le. intros x y z ??. lia. Qed.

Global Instance key_le_total {A} : Total (@key_le A).
Proof. unfold key_le. intros x y. lia. Qed.

Lemma key_inj {A} (l : list (Z * A)) x y :
  NoDup (l.*1) → x ∈ l → y ∈ l → x.1 = y.1 → x = y.
Proof.
  induction l as [|z l IH]; intros Hnd Hx Hy Hk; [by inv Hx|].
  csimpl in Hnd. apply NoDup_cons in Hnd as [Hz Hnd].
  apply elem_of_cons in Hx as [->|Hx]; apply elem_of_cons in Hy as [->|Hy].
  - done.
  - destruct Hz. rewrite Hk. by apply list_elem_of_fmap_2.
  - destruct Hz. rewrite <-Hk. by apply list_elem_of_fmap_2.
  - by apply IH.
Qed.

Lemma order_by_key_unique {A} (l l' : list (Z * A)) :
  NoDup (l.*1) → Sorted key_le l' → l' ≡ₚ l → order_by_key l = l'.
Proof.
  intros Hnd Hs Hp. unfold order_by_key.
  apply (Sorted_unique_strong key_le).
  - intros x y Hx Hy Hxy Hyx. apply (key_inj l); [done| | |].
    + by rewrite <-(merge_sort_Permutation key_le l).
    + by rewrite <-Hp.
    + unfold key_le in *. lia.
  - apply (Sorted_merge_sort key_le).
  - done.
  - by rewrite merge_sort_Permutation.
Qed.

Lemma order_by_key_perm {A} (l : list (Z * A)) : order_by_key l ≡ₚ l.
Proof. apply merge_sort_Permutation. Qed.

Lemma order_by_key_sorted {A} (l : list (Z * A)) : Sorted key_le (order_by_key l).
Proof. apply (Sorted_merge_sort key_le). Qed.

Lemma order_by_key_map {A B} (g : Z * A → Z * B) (l : list (Z * A)) :
  (∀ x, (g x).1 = x.1) → NoDup (l.*1) →
  order_by_key (map g l) = map g (order_by_key l).
Proof.
  intros Hg Hnd. apply order_by_key_unique.
  - replace ((map g l).*1) with (l.*1); [done|].
    clear Hnd. induction l as [|x l IH]; [done|]. csimpl. by rewrite Hg, IH.
  - change (map g (order_by_key l)) with (g <$> order_by_key l).
    eapply Sorted_fmap; [|apply order_by_key_sorted].
    intros x y. unfold key_le. by rewrite !Hg.
  - apply (fmap_Permutation g). apply merge_sort_Permutation.
Qed.

(** ** Numbered options *)

Lemma numbered_cons idx l rest :
  numbered idx (l :: rest) = (idx, l) :: numbered (idx + 1) rest.
Proof.
  unfold numbered. simpl length. rewrite seqZ_cons by lia. simpl.
  do 3 f_equal; lia.
Qed.

Lemma numbered_keys idx labels :
  (numbered idx labels).*1 = seqZ idx (Z.of_nat (length labels)).
Proof.
  unfold numbered. apply fst_zip. rewrite length_seqZ. lia.
Qed.

Lemma enumerate_from_numbered idx labels :
  enumerate_from idx labels = list_to_map (numbered idx labels).
Proof.
  revert idx. induction labels as [|l rest IH]; intros idx; [done|].
  rewrite numbered_cons, list_to_map_cons. simpl. by rewrite IH.
Qed.

Lemma numbered_sorted idx labels : Sorted key_le (numbered idx labels).
Proof.
  revert idx. induction labels as [|l rest IH]; intros idx.
  - constructor.
  - rewrite numbered_cons. constructor; [apply IH|].
    destruct rest as [|l' rest']; [constructor|].
    rewrite numbered_cons. constructor. unfold key_le; simpl. lia.
Qed.

Lemma options_in_order idx labels :
  order_by_key (map_to_list (enumerate_from idx labels)) = numbered idx labels.
Proof.
  apply order_by_key_unique.
  - apply NoDup_fst_map_to_list.
  - apply numbered_sorted.
  - rewrite enumerate_from_numbered. symmetry. apply map_to_list_to_map.
    rewrite numbered_keys. apply NoDup_seqZ.
Qed.

Lemma enumerate_from_dom idx labels k :
  is_Some (enumerate_from idx labels !! k) ↔ idx ≤ k < idx + Z.of_nat (length labels).
Proof.
  rewrite lookup_enumerate_from. case_decide.
  - rewrite lookup_lt_is_Some. lia.
  - split; [by intros [? ?]|lia].
Qed.

(** ** The standings query *)

Lemma left_join_blocks os vs : left_join os vs = flat_map (join_block vs) os.
Proof. reflexivity. Qed.

Lemma join_block_fst vs o r : r ∈ join_block vs o → r.1 = o.
Proof.
  unfold join_block. destruct (List.filter _ vs) as [|m ms].
  - intros ->%list_elem_of_singleton. done.
  - rewrite list_elem_of_In, in_map_iff. by intros (v & <- & _).
Qed.

Lemma join_block_nonempty vs o : join_block vs o ≠ [].
Proof. unfold join_block. by destruct (List.filter _ vs). Qed.

Lemma join_block_count vs o k :
  length (List.filter (λ r, bool_decide (r.1 = k) && bool_decide (is_Some r.2))
            (join_block vs o))
  = if decide (o = k)
    then length (List.filter (λ v, bool_decide (v_option_id v.2 = o.1)) vs)
    else 0%nat.
Proof.
  unfold join_block. destruct (List.filter _ vs) as [|m ms].
  - simpl. rewrite andb_false_r. by case_decide.
  - generalize (m :: ms). intros l. induction l as [|v l IH]; simpl.
    + by case_decide.
    + rewrite andb_true_r.
      case_decide.
      * rewrite bool_decide_eq_true_2 by done. simpl. by rewrite IH.
      * rewrite bool_decide_eq_false_2 by done. by rewrite IH.
Qed.

Lemma remove_dups_const_app {A} `{EqDecision A} (x : A) xs ys :
  xs ≠ [] → (∀ y, y ∈ xs → y = x) → x ∉ ys →
  remove_dups (xs ++ ys) = x :: remove_dups ys.
Proof.
  intros Hne Hall Hnot. induction xs as [|a xs IH]; [done|].
  assert (a = x) as -> by (apply Hall; left).
  destruct xs as [|b xs].
  - simpl. by destruct (decide_rel (∈) x ys).
  - assert (b = x) as -> by (apply Hall; right; left).
    assert (remove_dups ((x :: xs) ++ ys) = x :: remove_dups ys) as IH'.
    { apply IH; [done|]. intros y Hy. apply Hall. by right. }
    simpl in *. destruct (decide_rel (∈) x (x :: xs ++ ys)) as [_|Hn]; [done|].
    destruct Hn. left.
Qed.

Lemma join_keys vs os k :
  k ∈ map fst (flat_map (join_block vs) os) → k ∈ os.
Proof.
  rewrite list_elem_of_In, in_map_iff. intros (r & <- & Hr).
  apply in_flat_map in Hr as (o & Ho & Hr).
  apply list_elem_of_In in Hr. apply join_block_fst in Hr as ->.
  by apply list_elem_of_In.
Qed.

Lemma join_groups vs os :
  NoDup os → remove_dups (map fst (flat_map (join_block vs) os)) = os.
Proof.
  induction 1 as [|o os Ho Hnd IH]; [done|].
  simpl. rewrite map_app. erewrite remove_dups_const_app.
  - by rewrite IH.
  - intros E. apply map_eq_nil in E. by apply join_block_nonempty in E.
  - intros y. rewrite list_elem_of_In, in_map_iff. intros (r & <- & Hr).
    apply list_elem_of_In in Hr. by apply join_block_fst in Hr.
  - intros Hin. by apply join_keys in Hin.
Qed.

Lemma join_count_absent vs os k :
  k ∉ os → count_user_id k (flat_map (join_block vs) os) = 0.
Proof.
  unfold count_user_id. induction os as [|o os IH]; intros Hk; [done|].
  apply not_elem_of_cons in Hk as [Hne Hk].
  simpl. rewrite List.filter_app, length_app, join_block_count.
  rewrite decide_False by done. simpl. by apply IH.
Qed.

Lemma join_count vs os k :
  NoDup os → k ∈ os →
  count_user_id k (flat_map (join_block vs) os)
  = Z.of_nat (length (List.filter (λ v, bool_decide (v_option_id v.2 = k.1)) vs)).
Proof.
  induction 1 as [|o os Ho Hnd IH]; intros Hk; [by inv Hk|].
  unfold count_user_id in *. simpl.
  rewrite List.filter_app, length_app, join_block_count.
  apply elem_of_cons in Hk as [->|Hk].
  - rewrite decide_True by done.
    pose proof (join_count_absent vs os o Ho) as H0. unfold count_user_id in H0.
    lia.
  - rewrite decide_False by (intros ->; done). simpl. by apply IH.
Qed.

Lemma group_by_option_join vs os :
  NoDup os →
  group_by_option (left_join os vs)
  = map (λ o, (o.1, (o.2,
          Z.of_nat (length (List.filter (λ v, bool_decide (v_option_id v.2 = o.1)) vs)))))
        os.
Proof.
  intros Hnd. unfold group_by_option. rewrite left_join_blocks, join_groups by done.
  apply map_ext_in. intros o Ho. simpl.
  rewrite join_count; [done..|]. by apply list_elem_of_In.
Qed.

Lemma select_standings_store opts vts :
  select_standings (store opts vts)
  = inr (map (λ o, (o.1, (o.2, votes_for o.1 vts)))
             (order_by_key (map_to_list opts))).
Proof.
  unfold select_standings; simpl.
  rewrite group_by_option_join by apply NoDup_map_to_list.
  f_equal.
  apply (order_by_key_map (λ o : Z * list N, (o.1, (o.2, votes_for o.1 vts)))).
  - done.
  - apply NoDup_fst_map_to_list.
Qed.

Lemma get_vote_standings_store opts vts :
  get_vote_standings (store opts vts)
  = (inr (map (λ o, MkVoteStandingRow o.1 o.2 (votes_for o.1 vts))
              (order_by_key (map_to_list opts))),
     store opts vts).
Proof.
  unfold get_vote_standings, with_connection, bind, pragma_foreign_keys_on, query.
  cbn [connect working durable foreign_keys in_transaction].
  rewrite select_standings_store. unfold ret. by rewrite map_map.
Qed.

Lemma list_vote_options_store opts vts :
  list_vote_options (store opts vts)
  = (inr (order_by_key (map_to_list opts)), store opts vts).
Proof. reflexivity. Qed.

Lemma get_total_votes_store opts vts :
  get_total_votes (store opts vts) = (inr (Z.of_nat (size vts)), store opts vts).
Proof. reflexivity. Qed.

(** ** Sums of counts *)

Lemma sum_of_zero ks : sum_of (λ _, 0) ks = 0.
Proof. induction ks; simpl; lia. Qed.

Lemma sum_of_add f g ks :
  sum_of (λ k, f k + g k) ks = sum_of f ks + sum_of g ks.
Proof. induction ks; simpl; lia. Qed.

Lemma sum_of_ext f g ks : (∀ k, f k = g k) → sum_of f ks = sum_of g ks.
Proof. intros E. induction ks; simpl; [done|]. by rewrite E, IHks. Qed.

Lemma sum_of_indicator_absent x ks :
  x ∉ ks → sum_of (λ k, if bool_decide (x = k) then 1 else 0) ks = 0.
Proof.
  induction ks as [|k ks IH]; [done|].
  intros [Hne Hk]%not_elem_of_cons. simpl.
  rewrite bool_decide_eq_false_2 by done. by rewrite IH.
Qed.

Lemma sum_of_indicator x ks :
  NoDup ks → x ∈ ks →
  sum_of (λ k, if bool_decide (x = k) then 1 else 0) ks = 1.
Proof.
  induction 1 as [|k ks Hk Hnd IH]; [by intros ?%not_elem_of_nil|].
  intros [->|Hx]%elem_of_cons; simpl.
  - rewrite bool_decide_eq_true_2 by done. by rewrite sum_of_indicator_absent.
  - rewrite bool_decide_eq_false_2 by (intros ->; done). by rewrite IH.
Qed.

Lemma sum_of_filter_length {A} (key : A → Z) (vs : list A) ks :
  NoDup ks → (∀ v, v ∈ vs → key v ∈ ks) →
  sum_of (λ k, Z.of_nat (length (List.filter (λ v, bool_decide (key v = k)) vs))) ks
  = Z.of_nat (length vs).
Proof.
  intros Hnd. induction vs as [|v vs IH]; intros Hin; simpl.
  - apply sum_of_zero.
  - rewrite (sum_of_ext _ (λ k, (if bool_decide (key v = k) then 1 else 0)
       + Z.of_nat (length (List.filter (λ v, bool_decide (key v = k)) vs)))).
    + rewrite sum_of_add, IH by (intros; apply Hin; by right).
      rewrite sum_of_indicator; [lia|done|]. apply Hin. left.
    + intros k. destruct (bool_decide (key v = k)); simpl; lia.
Qed.

(** ** Counting votes *)

Lemma filter_length_perm {A} (f : A → bool) (l l' : list A) :
  l ≡ₚ l' → length (List.filter f l) = length (List.filter f l').
Proof.
  induction 1 as [|x l l' _ IH|x y l|l l' l'' _ IH1 _ IH2]; simpl.
  - done.
  - destruct (f x); simpl; by rewrite IH.
  - destruct (f x), (f y); done.
  - by rewrite IH1.
Qed.

Lemma votes_for_empty o : votes_for o ∅ = 0.
Proof. unfold votes_for. by rewrite map_to_list_empty. Qed.

Lemma votes_for_insert o u v (vts : gmap Z vote_row) :
  vts !! u = None →
  votes_for o (<[u := v]> vts)
  = (if bool_decide (v_option_id v = o) then 1 else 0) + votes_for o vts.
Proof.
  intros Hu. unfold votes_for.
  rewrite (filter_length_perm _ _ _ (map_to_list_insert vts u v Hu)). simpl.
  destruct (bool_decide _); simpl; lia.
Qed.

Lemma remove_dups_NoDup {A} `{EqDecision A} (l : list A) :
  NoDup l → remove_dups l = l.
Proof.
  induction 1 as [|x l Hx Hnd IH]; [done|].
  simpl. destruct (decide_rel (∈) x l); [done|]. by rewrite IH.
Qed.

Lemma NoDup_map_fst_filter {A B} (f : A * B → bool) (l : list (A * B)) :
  NoDup (map fst l) → NoDup (map fst (List.filter f l)).
Proof.
  induction l as [|x l IH]; [done|]. simpl.
  intros [Hx Hnd]%NoDup_cons. destruct (f x); simpl; [|by apply IH].
  apply NoDup_cons. split; [|by apply IH].
  intros Hin. apply Hx. apply list_elem_of_In, in_map_iff in Hin as (y & Hy & Hin).
  apply filter_In in Hin as [Hin _].
  apply list_elem_of_In, in_map_iff. eauto.
Qed.

Lemma distinct_voters_NoDup o S :
  NoDup (map fst S) →
  distinct_voters o S
  = Z.of_nat (length (List.filter (λ uo : Z * Z, bool_decide (uo.2 = o)) S)).
Proof.
  intros Hnd. unfold distinct_voters.
  rewrite remove_dups_NoDup by by apply NoDup_map_fst_filter.
  by rewrite length_map.
Qed.

Lemma exec_cast_vote_store now u o opts vts :
  exec (CastVote now u o) (store opts vts) =
    if int64 u && int64 o then
      match vts !! u with
      | Some _ => (inl E_unique_votes, store opts vts)
      | None =>
          if bool_decide (is_Some (opts !! o))
          then (inr VNone, store opts (<[u := VoteRow o now]> vts))
          else (inl E_foreign_key, store opts vts)
      end
    else (inl E_overflow, store opts vts).
Proof.
  simpl. unfold returning, bind. rewrite cast_vote_store.
  destruct (int64 u && int64 o); [|done].
  destruct (vts !! u); [done|]. by destruct (bool_decide _).
Qed.

Lemma run_keeps_votes cs : ∀ opts vts,
  forallb keeps_votes cs = true →
  ∃ vts',
    (run cs (store opts vts)).2 = store opts vts' ∧
    NoDup (map fst (successful_votes cs (run cs (store opts vts)).1)) ∧
    (∀ u, u ∈ map fst (successful_votes cs (run cs (store opts vts)).1) → vts !! u = None) ∧
    (∀ u, is_Some (vts !! u) → is_Some (vts' !! u)) ∧
    (∀ o, votes_for o vts'
          = votes_for o vts
            + Z.of_nat (length (List.filter (λ uo : Z * Z, bool_decide (uo.2 = o))
                                  (successful_votes cs (run cs (store opts vts)).1)))).
Proof.
  induction cs as [|c cs IH]; intros opts vts Hq.
  { exists vts. simpl. split_and!; [done|constructor|by intros ? ?%not_elem_of_nil|done|intros; lia]. }
  simpl in Hq. apply andb_true_iff in Hq as [Hc Hq].
  rewrite run_cons.
  destruct (decide (is_cast c = true)) as [Hcast|Hcast].
  - destruct c as [| | | |now u0 o0| | | |]; try discriminate.
    rewrite exec_cast_vote_store.
    destruct (int64 u0 && int64 o0);
      [|destruct (IH opts vts Hq) as (vts' & ? & ? & ? & ? & ?); by exists vts'].
    destruct (vts !! u0) as [v|] eqn:Hu; [|destruct (bool_decide _) eqn:Ho].
    + destruct (IH opts vts Hq) as (vts' & ? & ? & ? & ? & ?). by exists vts'.
    + destruct (IH opts (<[u0 := VoteRow o0 now]> vts) Hq)
        as (vts' & E & Hnd & Hfresh & Hmono & Hcount).
      exists vts'. cbn [fst snd successful_votes]. split_and!.
      * done.
      * simpl. apply NoDup_cons. split; [|done].
        intros Hin. apply Hfresh in Hin. by rewrite lookup_insert_eq in Hin.
      * intros u [->|Hin]%elem_of_cons; [done|].
        apply Hfresh in Hin. apply lookup_insert_None in Hin. tauto.
      * intros u Hs. apply Hmono. rewrite lookup_insert. case_decide; eauto.
      * intros o. rewrite Hcount, votes_for_insert by done. simpl.
        destruct (bool_decide (o0 = o)); simpl; lia.
    + destruct (IH opts vts Hq) as (vts' & ? & ? & ? & ? & ?). by exists vts'.
  - assert ((exec c (store opts vts)).2 = store opts vts) as E.
    { rewrite exec_store. by destruct c. }
    rewrite E. destruct (IH opts vts Hq) as (vts' & ? & ? & ? & ? & ?).
    exists vts'. cbn [fst snd].
    assert (∀ r rs, successful_votes (c :: cs) (r :: rs) = successful_votes cs rs) as ->.
    { intros r rs. by destruct c, r. }
    done.
Qed.

(** ** Sum of the standings *)

Lemma votes_total (opts : gmap Z (list N)) (vts : gmap Z vote_row) :
  (∀ u v, vts !! u = Some v → is_Some (opts !! v_option_id v)) →
  sum_of (λ k, votes_for k vts) ((order_by_key (map_to_list opts)).*1)
  = Z.of_nat (size vts).
Proof.
  intros Hri. unfold votes_for.
  rewrite (sum_of_filter_length (λ uv : Z * vote_row, v_option_id uv.2)).
  - by rewrite length_map_to_list.
  - rewrite order_by_key_perm. apply NoDup_fst_map_to_list.
  - intros [u v] Hin%elem_of_map_to_list. simpl.
    destruct (Hri u v Hin) as [l Hl].
    rewrite order_by_key_perm. apply list_elem_of_fmap.
    exists (v_option_id v, l). split; [done|]. by apply elem_of_map_to_list.
Qed.

(** ** Usable labels *)

Lemma labels_list_usable labels : labels_list labels = usable_labels labels.
Proof.
  unfold labels_list, usable_labels.
  induction labels as [|l labels IH]; [done|]. simpl.
  assert (truthy l && truthy (strip l) = bool_decide (strip l ≠ [])) as ->.
  { destruct l as [|c l]; [done|]. simpl truthy at 1. simpl andb.
    by destruct (strip (c :: l)). }
  destruct (bool_decide (strip l ≠ [])); simpl; by rewrite IH.
Qed.

Lemma usable_labels_app l1 l2 :
  usable_labels (l1 ++ l2) = usable_labels l1 ++ usable_labels l2.
Proof. unfold usable_labels. by rewrite map_app, List.filter_app. Qed.

Lemma usable_labels_cons s rest :
  strip s ≠ [] → usable_labels (s :: rest) = strip s :: usable_labels rest.
Proof.
  intros Hs. unfold usable_labels. simpl. by rewrite bool_decide_eq_true_2.
Qed.

Lemma usable_labels_split labels a s :
  labels !! a = Some s → strip s ≠ [] →
  usable_labels labels
  = usable_labels (take a labels) ++ strip s :: usable_labels (drop (S a) labels).
Proof.
  intros Ha Hs.
  rewrite <-(usable_labels_cons s (drop (S a) labels) Hs), <-usable_labels_app.
  by rewrite take_drop_middle.
Qed.

Lemma usable_labels_at labels a s :
  labels !! a = Some s → strip s ≠ [] →
  usable_labels labels !! length (usable_labels (take a labels)) = Some (strip s).
Proof.
  intros Ha Hs. rewrite (usable_labels_split labels a s Ha Hs) at 1.
  rewrite lookup_app_r by done. by rewrite Nat.sub_diag.
Qed.

Lemma usable_labels_take_mono labels a b s :
  (a < b)%nat → labels !! a = Some s → strip s ≠ [] →
  (length (usable_labels (take a labels)) < length (usable_labels (take b labels)))%nat.
Proof.
  intros Hab Ha Hs.
  assert (take b labels !! a = Some s) as Hb by (by rewrite lookup_take_lt).
  rewrite (usable_labels_split (take b labels) a s Hb Hs).
  rewrite take_take, Nat.min_l by lia. rewrite length_app. simpl. lia.
Qed.

Lemma total_of_rows (f : Z → Z) (l : list (Z * list N)) :
  total_of (map (λ o, MkVoteStandingRow o.1 o.2 (f o.1)) l) = sum_of f (l.*1).
Proof. induction l as [|o l IH]; [done|]. simpl. by rewrite IH. Qed.

Lemma enumerate_from_lookup labels (i : nat) :
  enumerate_from 1 labels !! (1 + Z.of_nat i) = labels !! i.
Proof.
  rewrite lookup_enumerate_from. rewrite decide_True by lia.
  f_equal. lia.
Qed.

(** ** Invariants of runs *)

Lemma sample_poll_installed : installed sample_poll.
Proof. split; reflexivity. Qed.

Lemma next_dense c opts vts :
  dense_option_ids (store opts vts) →
  dense_option_ids (store (next c (opts, vts)).1 (next c (opts, vts)).2).
Proof.
  intros Hd. destruct c as [labels| | | |now u o| | | |]; try exact Hd; simpl.
  - destruct (_ <? _)%nat; [exact Hd|]. destruct (bool_decide _); [|exact Hd].
    simpl. exists (Z.of_nat (length (labels_list labels))). split; [lia|].
    intros k. unfold option_rows; simpl. rewrite enumerate_from_dom. lia.
  - destruct (int64 u && int64 o); [|exact Hd].
    destruct (vts !! u); [exact Hd|]. by destruct (bool_decide _).
Qed.

Lemma run_dense cs : ∀ d,
  installed d → dense_option_ids d → dense_option_ids (run cs d).2.
Proof.
  induction cs as [|c cs IH]; intros d Hi Hd; [done|].
  rewrite run_cons. cbn [snd]. apply IH; [by apply exec_installed|].
  rewrite (installed_store d Hi) in Hd |- *. rewrite exec_store.
  by apply next_dense.
Qed.

Lemma next_integrity c opts vts :
  referential_integrity (store opts vts) →
  referential_integrity (store (next c (opts, vts)).1 (next c (opts, vts)).2).
Proof.
  intros Hr. destruct c as [labels| | | |now u0 o0| | | |]; try exact Hr; simpl.
  - destruct (_ <? _)%nat; [exact Hr|]. destruct (bool_decide _); [|exact Hr].
    intros u v. unfold vote_rows; simpl. by rewrite lookup_empty.
  - destruct (int64 u0 && int64 o0); [|exact Hr].
    destruct (vts !! u0) eqn:Hu; [exact Hr|].
    case_bool_decide as Ho; [|exact Hr].
    intros u v. unfold vote_rows, option_rows; simpl.
    rewrite lookup_insert. case_decide.
    + intros [= <-]. done.
    + apply Hr.
  - intros u v. unfold vote_rows; simpl. by rewrite lookup_empty.
Qed.

Lemma run_integrity cs : ∀ d,
  installed d → referential_integrity d → referential_integrity (run cs d).2.
Proof.
  induction cs as [|c cs IH]; intros d Hi Hr; [done|].
  rewrite run_cons. cbn [snd]. apply IH; [by apply exec_installed|].
  rewrite (installed_store d Hi) in Hr |- *. rewrite exec_store.
  by apply next_integrity.
Qed.

(** C4: with fewer than two usable labels [set_vote_options] raises the
    [ValueError] and the file, options and votes alike, is exactly as before. *)
Theorem set_vote_options_rejects_too_few (labels : list (list N)) (d : database) :
  (length (usable_labels labels) < 2)%nat →
  set_vote_options labels d = (inl E_too_few_options, d).
Proof.
  intros Hlt. rewrite set_vote_options_cases, labels_list_usable.
  by destruct (Nat.ltb_spec (length (usable_labels labels)) 2); [|lia].
Qed.

Lemma set_vote_options_rejects_too_few_witness :
  (length (usable_labels [py "only one"; py "   "]) < 2)%nat ∧
  set_vote_options [py "only one"; py "   "] sample_voted
  = (inl E_too_few_options, sample_voted).
Proof.
  split; [vm_compute; lia|].
  apply set_vote_options_rejects_too_few. vm_compute; lia.
Defined.

(** C5: a successful [set_vote_options] leaves no vote, and exactly the usable
    labels as options numbered 1..N in the submitted order, and returns N;
    after every sequence of calls the option ids are 1..n for some n. *)
Theorem set_vote_options_numbers_options
    (labels : list (list N)) (d d' : database) (n : Z) :
  installed d →
  set_vote_options labels d = (inr n, d') →
  n = Z.of_nat (length (usable_labels labels)) ∧
  vote_rows d' = ∅ ∧
  option_rows d' = list_to_map (numbered 1 (usable_labels labels)) ∧
  (∀ k, is_Some (option_rows d' !! k) ↔ 1 ≤ k ≤ n) ∧
  (∀ i : nat, option_rows d' !! (1 + Z.of_nat i) = usable_labels labels !! i) ∧
  list_vote_options d' = (inr (numbered 1 (usable_labels labels)), d') ∧
  (∀ cs, dense_option_ids (run cs d').2) ∧
  (∀ cs, dense_option_ids (run cs (init_db empty_database).2).2).
Proof.
  intros Hi Hset. rewrite (installed_store d Hi) in Hset.
  rewrite set_vote_options_cases in Hset. simpl in Hset.
  destruct (_ <? _)%nat; [done|].
  destruct (first_bind_error (labels_list labels)); [done|].
  rewrite labels_list_usable in Hset.
  injection Hset as <- <-.
  change {| tbl_vote_options := _; tbl_votes := _ |}
    with (store (enumerate_from 1 (usable_labels labels)) ∅).
  assert (dense_option_ids (store (enumerate_from 1 (usable_labels labels)) ∅)) as Hd.
  { exists (Z.of_nat (length (usable_labels labels))). split; [lia|].
    intros k. unfold option_rows; simpl. rewrite enumerate_from_dom. lia. }
  split_and!.
  - done.
  - done.
  - apply enumerate_from_numbered.
  - intros k. unfold option_rows; simpl. rewrite enumerate_from_dom. lia.
  - intros i. apply enumerate_from_lookup.
  - rewrite list_vote_options_store. by rewrite options_in_order.
  - intros cs. apply run_dense; [apply store_installed|done].
  - intros cs. rewrite init_db_empty. cbn [snd]. apply run_dense; [apply store_installed|].
    exists 0. split; [done|]. intros k. unfold option_rows; simpl.
    rewrite lookup_empty. split; [by intros [? ?]|lia].
Qed.

Lemma set_vote_options_numbers_options_witness :
  installed sample_voted ∧
  set_vote_options sample_labels sample_voted = (inr 3, sample_poll) ∧
  vote_rows sample_poll = ∅ ∧
  list_vote_options sample_poll
  = (inr [(1, py "Pizza"); (2, py "Tacos"); (3, py "Pizza")], sample_poll).
Proof.
  assert (installed sample_voted) as Hi by (split; reflexivity).
  assert (set_vote_options sample_labels sample_voted = (inr 3, sample_poll)) as Hs
    by (vm_compute; reflexivity).
  split; [exact Hi|]. split; [exact Hs|].
  destruct (set_vote_options_numbers_options sample_labels sample_voted sample_poll 3 Hi Hs)
    as (_ & Hv & _ & _ & _ & Hl & _).
  split; [exact Hv|exact Hl].
Defined.

(** C9: none of the read functions changes the file, whatever its state. *)
Theorem reads_leave_the_file_unchanged (d : database) (o u : Z) :
  (list_vote_options d).2 = d ∧
  (option_exists o d).2 = d ∧
  (user_has_voted u d).2 = d ∧
  (get_vote_standings d).2 = d ∧
  (get_total_votes d).2 = d ∧
  (get_vote_label o d).2 = d.
Proof.
  unfold list_vote_options, option_exists, user_has_voted, get_vote_standings,
    get_total_votes, get_vote_label, with_connection, bind, query,
    pragma_foreign_keys_on, ret.
  cbn [connect working durable foreign_keys in_transaction].
  split_and!.
  - done.
  - by destruct (select_1_from_vote_options o d).
  - by destruct (select_1_from_votes u d).
  - by destruct (select_standings d).
  - by destruct (select_count_votes d).
  - done.
Qed.

(** C10 (amended): labels need not be distinct.  When at least two usable
    labels remain and every usable label encodes as UTF-8 (no surrogate),
    every usable entry of the submitted list, repeated or not, becomes an
    option of its own: the entry at position [a] is stored under
    [option_id_of labels a], and different positions get different ids. *)
Theorem set_vote_options_keeps_repeated_labels
    (labels : list (list N)) (d : database) :
  installed d →
  (2 ≤ length (usable_labels labels))%nat →
  Forall encodable (usable_labels labels) →
  ∃ d',
    set_vote_options labels d = (inr (Z.of_nat (length (usable_labels labels))), d') ∧
    (∀ a s, labels !! a = Some s → strip s ≠ [] →
            option_rows d' !! option_id_of labels a = Some (strip s)) ∧
    (∀ a b s t, (a < b)%nat →
            labels !! a = Some s → strip s ≠ [] →
            labels !! b = Some t → strip t ≠ [] →
            option_id_of labels a < option_id_of labels b).
Proof.
  intros Hi Hge Henc. rewrite (installed_store d Hi).
  rewrite set_vote_options_store by (by rewrite labels_list_usable).
  rewrite labels_list_usable. eexists. split; [reflexivity|]. split.
  - intros a s Ha Hs. unfold option_rows, option_id_of; simpl.
    rewrite enumerate_from_lookup. by apply usable_labels_at.
  - intros a b s t Hab Ha Hs _ _. unfold option_id_of.
    pose proof (usable_labels_take_mono labels a b s Hab Ha Hs). lia.
Qed.

Lemma set_vote_options_keeps_repeated_labels_witness :
  installed sample_voted ∧
  (2 ≤ length (usable_labels sample_labels))%nat ∧
  Forall encodable (usable_labels sample_labels) ∧
  sample_labels !! 0%nat = sample_labels !! 3%nat ∧
  option_rows (set_vote_options sample_labels sample_voted).2 !! 1 = Some (py "Pizza") ∧
  option_rows (set_vote_options sample_labels sample_voted).2 !! 3 = Some (py "Pizza").
Proof.
  assert (installed sample_voted) as Hi by (split; reflexivity).
  assert (2 ≤ length (usable_labels sample_labels))%nat as Hge by (vm_compute; lia).
  assert (Forall encodable (usable_labels sample_labels)) as Henc
    by (apply (bool_decide_unpack _); vm_compute; exact I).
  split; [exact Hi|]. split; [exact Hge|]. split; [exact Henc|]. split; [reflexivity|].
  destruct (set_vote_options_keeps_repeated_labels sample_labels sample_voted Hi Hge Henc)
    as (d' & Hset & Hat & _).
  rewrite Hset. cbn [snd]. split.
  - apply (Hat 0%nat (py "Pizza")); [reflexivity|]. vm_compute. discriminate.
  - apply (Hat 3%nat (py "Pizza")); [reflexivity|]. vm_compute. discriminate.
Defined.

(** C10 as stated fails: the same non-empty text twice, two usable labels,
    yet the list is not accepted, because the text holds a lone surrogate
    (U+D800): the first INSERT raises [UnicodeEncodeError], nothing is
    stored and the old poll stays. *)
Lemma repeated_surrogate_label_is_refused :
  let labels := [[55296%N]; [55296%N]] in
  installed sample_voted ∧
  (2 ≤ length (usable_labels labels))%nat ∧
  labels !! 0%nat = labels !! 1%nat ∧
  set_vote_options labels sample_voted
  = (inl (UnicodeEncodeError [55296%N] 0 1), sample_voted) ∧
  (∀ k, option_rows (set_vote_options labels sample_voted).2 !! k ≠ Some [55296%N]).
Proof.
  split_and!; [split; reflexivity|vm_compute; lia|reflexivity|reflexivity|].
  assert (set_vote_options [[55296%N]; [55296%N]] sample_voted
          = (inl (UnicodeEncodeError [55296%N] 0 1), sample_voted)) as -> by reflexivity.
  cbn [snd]. intros k.
  assert (option_rows sample_voted
          = list_to_map [(1, py "Pizza"); (2, py "Tacos"); (3, py "Pizza")]) as ->
    by reflexivity.
  intros H%elem_of_list_to_map_2.
  repeat (apply elem_of_cons in H as [H|H]; [discriminate|]).
  by apply not_elem_of_nil in H.
Qed.

(** C7: on an installed store [clear_votes] returns, removes every vote row
    and nothing else: the result is the file with the rows of [votes]
    deleted, the options and both table definitions as they were.  Clearing
    again, or clearing when there is no vote, changes nothing. *)
Theorem clear_votes_deletes_the_vote_rows (d : database) :
  installed d →
  ∃ d',
    clear_votes d = (inr (), d') ∧
    d' = delete_all_vote_rows d ∧
    tbl_vote_options d' = tbl_vote_options d ∧
    vt_def <$> tbl_votes d' = vt_def <$> tbl_votes d ∧
    vote_rows d' = ∅ ∧
    clear_votes d' = (inr (), d') ∧
    (vote_rows d = ∅ → d' = d).
Proof.
  intros Hi. rewrite (installed_store d Hi). rewrite clear_votes_store.
  eexists. split; [reflexivity|]. split_and!; try reflexivity.
  unfold vote_rows at 1; simpl. by intros ->.
Qed.

Lemma clear_votes_deletes_the_vote_rows_witness :
  installed sample_voted ∧
  vote_rows sample_voted ≠ ∅ ∧
  clear_votes sample_voted = (inr (), sample_poll).
Proof.
  assert (installed sample_voted) as Hi by (split; reflexivity).
  split; [exact Hi|]. split; [vm_compute; discriminate|].
  destruct (clear_votes_deletes_the_vote_rows sample_voted Hi) as (d' & Hc & -> & _).
  rewrite Hc. reflexivity.
Defined.

(** C8 (amended): defining the options twice with the same valid labels,
    all of which encode as UTF-8 (no surrogate), with any calls in between
    and from any installed state, ends in the same file as defining them
    once: the same options and no votes. *)
Theorem set_vote_options_twice
    (labels : list (list N)) (between : list call) (d : database) :
  installed d →
  (2 ≤ length (usable_labels labels))%nat →
  Forall encodable (usable_labels labels) →
  let once := (set_vote_options labels d).2 in
  let twice := (run ([DefineOptions labels] ++ between ++ [DefineOptions labels]) d).2 in
  (set_vote_options labels d).1 = inr (Z.of_nat (length (usable_labels labels))) ∧
  twice = once ∧
  option_rows twice = option_rows once ∧
  vote_rows twice = ∅.
Proof.
  intros Hi Hge Henc once twice.
  assert (∀ d0, installed d0 →
            set_vote_options labels d0
            = (inr (Z.of_nat (length (usable_labels labels))),
               store (enumerate_from 1 (usable_labels labels)) ∅)) as Hset.
  { intros d0 H0. rewrite (installed_store d0 H0).
    rewrite set_vote_options_store by (by rewrite labels_list_usable).
    by rewrite labels_list_usable. }
  assert (twice = once) as E.
  { unfold twice, once. rewrite !run_app.
    set (mid := (run between (run [DefineOptions labels] d).2).2).
    assert (installed mid) as Hmid by (by apply run_installed, run_installed).
    rewrite run_cons. cbn [snd run exec]. unfold returning, bind.
    by rewrite (Hset mid Hmid), (Hset d Hi). }
  rewrite E. unfold once. rewrite (Hset d Hi). done.
Qed.

Lemma set_vote_options_twice_witness :
  installed sample_voted ∧
  (2 ≤ length (usable_labels sample_labels))%nat ∧
  Forall encodable (usable_labels sample_labels) ∧
  (run ([DefineOptions sample_labels] ++ sample_calls ++ [DefineOptions sample_labels])
       sample_voted).2 = sample_poll.
Proof.
  assert (installed sample_voted) as Hi by (split; reflexivity).
  assert (2 ≤ length (usable_labels sample_labels))%nat as Hge by (vm_compute; lia).
  assert (Forall encodable (usable_labels sample_labels)) as Henc
    by (apply (bool_decide_unpack _); vm_compute; exact I).
  split; [exact Hi|]. split; [exact Hge|]. split; [exact Henc|].
  destruct (set_vote_options_twice sample_labels sample_calls sample_voted Hi Hge Henc)
    as (_ & -> & _). reflexivity.
Defined.

(** C8 as stated fails: two usable labels, one of them a lone surrogate
    (U+D800).  Both calls raise [UnicodeEncodeError] and change nothing, so
    after the second call the vote of user 42 is still there: the vote set
    is not empty. *)
Lemma twice_with_surrogate_label_keeps_the_votes :
  let labels := [py "Sushi"; [55296%N]] in
  let twice := (run ([DefineOptions labels] ++ [] ++ [DefineOptions labels]) sample_voted).2 in
  installed sample_voted ∧
  (2 ≤ length (usable_labels labels))%nat ∧
  (set_vote_options labels sample_voted).1 = inl (UnicodeEncodeError [55296%N] 0 1) ∧
  twice = sample_voted ∧
  is_Some (vote_rows twice !! 42) ∧
  vote_rows twice ≠ ∅.
Proof.
  split_and!; [split; reflexivity|vm_compute; lia|reflexivity|reflexivity
              |vm_compute; eauto|].
  assert ((run ([DefineOptions [py "Sushi"; [55296%N]]] ++ []
                ++ [DefineOptions [py "Sushi"; [55296%N]]]) sample_voted).2
          = sample_voted) as -> by reflexivity.
  intros E. assert (vote_rows sample_voted !! 42 = None) as H
    by (rewrite E; apply lookup_empty).
  vm_compute in H. discriminate.
Qed.

(** ** The handler and the remaining claims *)

Lemma installed_inv d : installed d → ∃ opts vts, d = store opts vts.
Proof. intros Hi. rewrite (installed_store d Hi). eauto. Qed.

Lemma vote_rows_store opts vts : vote_rows (store opts vts) = vts.
Proof. reflexivity. Qed.

Lemma option_rows_store opts vts : option_rows (store opts vts) = opts.
Proof. reflexivity. Qed.

Lemma user_has_voted_store u opts vts :
  user_has_voted u (store opts vts)
  = if int64 u then (inr (bool_decide (is_Some (vts !! u))), store opts vts)
    else (inl E_overflow, store opts vts).
Proof.
  unfold user_has_voted, with_connection, bind, query, ret, select_1_from_votes,
    bind_int; simpl.
  destruct (int64 u); [|done].
  f_equal. f_equal. apply bool_decide_ext.
  destruct (vts !! u); simpl; split; intros H; eauto; try done; by destruct H.
Qed.

Lemma option_exists_store o opts vts :
  option_exists o (store opts vts)
  = if int64 o then (inr (bool_decide (is_Some (opts !! o))), store opts vts)
    else (inl E_overflow, store opts vts).
Proof.
  unfold option_exists, with_connection, bind, query, ret,
    select_1_from_vote_options, bind_int; simpl.
  destruct (int64 o); [|done].
  f_equal. f_equal. apply bool_decide_ext.
  destruct (opts !! o); simpl; split; intros H; eauto; try done; by destruct H.
Qed.

(** The [try] block: an [OverflowError] of [cast_vote] is caught like every
    other exception, one of the second [user_has_voted] is not. *)
Lemma record_vote_store now u o opts vts :
  Bot.record_vote now u o (store opts vts) =
    if int64 u then
      match vts !! u with
      | Some _ => (inr Bot.AlreadyVoted, store opts vts)
      | None =>
          if int64 o && bool_decide (is_Some (opts !! o))
          then (inr Bot.ThankYou, store opts (<[u := VoteRow o now]> vts))
          else (inr Bot.SomethingWentWrong, store opts vts)
      end
    else (inl E_overflow, store opts vts).
Proof.
  unfold Bot.record_vote, try_except, bind. rewrite cast_vote_store.
  destruct (int64 u) eqn:Eu; simpl.
  - destruct (int64 o) eqn:Eo; simpl.
    + destruct (vts !! u) eqn:Hu.
      * rewrite user_has_voted_store, Eu, Hu.
        by rewrite bool_decide_eq_true_2 by eauto.
      * destruct (bool_decide (is_Some (opts !! o))); [done|].
        rewrite user_has_voted_store, Eu, Hu.
        by rewrite bool_decide_eq_false_2 by (by intros [? ?]).
    + rewrite user_has_voted_store, Eu. destruct (vts !! u) eqn:Hu.
      * by rewrite bool_decide_eq_true_2 by eauto.
      * by rewrite bool_decide_eq_false_2 by (by intros [? ?]).
  - by rewrite user_has_voted_store, Eu.
Qed.

(** The whole handler on an installed store, without interference between
    its calls.  The two checks before the [try] block are not guarded. *)
Lemma vote_store now u o opts vts :
  Bot.vote now u o (store opts vts) =
    if int64 u then
      match vts !! u with
      | Some _ => (inr Bot.AlreadyVoted, store opts vts)
      | None =>
          if int64 o then
            if bool_decide (is_Some (opts !! o))
            then (inr Bot.ThankYou, store opts (<[u := VoteRow o now]> vts))
            else (inr (match order_by_key (map_to_list opts) with
                       | [] => Bot.NoOptionsYet
                       | os => Bot.InvalidChoice os
                       end), store opts vts)
          else (inl E_overflow, store opts vts)
      end
    else (inl E_overflow, store opts vts).
Proof.
  unfold Bot.vote, bind. rewrite init_db_installed by apply store_installed.
  rewrite user_has_voted_store. destruct (int64 u) eqn:Eu; [|done].
  destruct (vts !! u) eqn:Hu.
  - by rewrite bool_decide_eq_true_2 by eauto.
  - rewrite bool_decide_eq_false_2 by (by intros [? ?]).
    rewrite option_exists_store. destruct (int64 o) eqn:Eo; [|done].
    destruct (bool_decide (is_Some (opts !! o))) eqn:Ho; cbn [negb].
    + rewrite record_vote_store, Eu, Eo, Hu, Ho. done.
    + rewrite list_vote_options_store. by destruct (order_by_key _).
Qed.

Lemma count_user_NoDup (u : Z) (S : list (Z * Z)) :
  NoDup (map fst S) →
  (length (List.filter (λ uo : Z * Z, bool_decide (uo.1 = u)) S) ≤ 1)%nat.
Proof.
  induction S as [|[u' o'] S IH]; simpl; [lia|].
  intros [Hu Hnd]%NoDup_cons. specialize (IH Hnd).
  case_bool_decide as E; simpl; [|done]. subst u'.
  assert (List.filter (λ uo : Z * Z, bool_decide (uo.1 = u)) S = []) as ->; [|simpl; lia].
  clear IH Hnd. induction S as [|[u2 o2] S IH]; [done|]. simpl in *.
  apply not_elem_of_cons in Hu as [Hne Hu].
  rewrite bool_decide_eq_false_2 by done. by apply IH.
Qed.

(** C1 (amended): between two vote-clearing calls at most one [cast_vote] of a
    user returns.  While a row of the user exists, every [cast_vote] of that
    user raises and leaves the file unchanged: the UNIQUE-constraint error of
    the primary key [user_id] when both ids fit the 64-bit INTEGER, the
    [OverflowError] of the binding otherwise. *)
Theorem one_vote_per_user_until_cleared
    (d : database) (cs : list call) (u : Z) :
  installed d →
  forallb keeps_votes cs = true →
  (length (List.filter (λ uo : Z * Z, bool_decide (uo.1 = u))
             (successful_votes cs (run cs d).1)) ≤ 1)%nat ∧
  (is_Some (vote_rows d !! u) →
     (∀ now o, cast_vote now u o d
               = (inl (if int64 u && int64 o then E_unique_votes else E_overflow), d)) ∧
     u ∉ map fst (successful_votes cs (run cs d).1)) ∧
  ColumnDef "user_id" "INTEGER" true false None ∈ td_columns SCHEMA_votes.
Proof.
  intros Hi Hcs. destruct (installed_inv d Hi) as (opts & vts & ->).
  destruct (run_keeps_votes cs opts vts Hcs) as (vts' & _ & Hnd & Hfresh & _ & _).
  rewrite vote_rows_store. split_and!.
  - by apply count_user_NoDup.
  - intros [v Hv]. split.
    + intros now o. rewrite cast_vote_store, Hv. by destruct (int64 u && int64 o).
    + intros Hin. apply Hfresh in Hin. congruence.
  - left.
Qed.

Lemma one_vote_per_user_until_cleared_witness :
  installed sample_poll ∧
  forallb keeps_votes sample_calls = true ∧
  successful_votes sample_calls (run sample_calls sample_poll).1 = [(42, 1); (7, 3); (9, 1)] ∧
  (length (List.filter (λ uo : Z * Z, bool_decide (uo.1 = 42%Z))
             (successful_votes sample_calls (run sample_calls sample_poll).1)) ≤ 1)%nat.
Proof.
  assert (installed sample_poll) as Hi by (split; reflexivity).
  assert (forallb keeps_votes sample_calls = true) as Hk by reflexivity.
  split; [exact Hi|]. split; [exact Hk|]. split; [reflexivity|].
  exact (proj1 (one_vote_per_user_until_cleared sample_poll sample_calls 42 Hi Hk)).
Defined.

(** C1 as stated fails: within one poll generation (no [set_vote_options] in
    between) user 42 votes, the votes are cleared, and user 42 votes again. *)
Lemma two_votes_in_one_generation :
  let cs := [CastVote "2024-01-01 12:00:00" 42 1; ClearVotes;
             CastVote "2024-01-01 12:05:00" 42 2] in
  installed sample_poll ∧
  forallb (λ c, negb (is_define c)) cs = true ∧
  successful_votes cs (run cs sample_poll).1 = [(42, 1); (42, 2)] ∧
  ¬ (length (List.filter (λ uo : Z * Z, bool_decide (uo.1 = 42%Z))
               (successful_votes cs (run cs sample_poll).1)) ≤ 1)%nat.
Proof.
  split_and!; [split; reflexivity|reflexivity|reflexivity|].
  vm_compute. lia.
Qed.

(** C2: after [set_vote_options] and any sequence of votes (and reads),
    [get_vote_standings] returns one row per option, 1..N in ascending
    order, options without votes included; the count of a row is the number
    of distinct users whose [cast_vote] for that option returned; and
    [get_total_votes] is the sum of the counts. *)
Theorem standings_count_the_successful_votes
    (labels : list (list N)) (cs : list call) (d d1 : database) (n : Z) :
  installed d →
  set_vote_options labels d = (inr n, d1) →
  forallb keeps_votes cs = true →
  let d2 := (run cs d1).2 in
  let cast := successful_votes cs (run cs d1).1 in
  let rows := map (λ o, MkVoteStandingRow o.1 o.2 (distinct_voters o.1 cast))
                  (numbered 1 (usable_labels labels)) in
  get_vote_standings d2 = (inr rows, d2) ∧
  map option_id rows = seqZ 1 n ∧
  get_total_votes d2 = (inr (total_of rows), d2).
Proof.
  intros Hi Hset Hcs d2 cast rows.
  destruct (installed_inv d Hi) as (opts0 & vts0 & ->).
  rewrite set_vote_options_cases in Hset. simpl in Hset.
  destruct (_ <? _)%nat; [done|].
  destruct (first_bind_error (labels_list labels)); [done|].
  rewrite labels_list_usable in Hset.
  injection Hset as <- <-.
  change {| tbl_vote_options := _; tbl_votes := _ |}
    with (store (enumerate_from 1 (usable_labels labels)) ∅) in *.
  set (opts := enumerate_from 1 (usable_labels labels)) in *.
  destruct (run_keeps_votes cs opts ∅ Hcs) as (vts & Hd2 & Hnd & _ & _ & Hcount).
  fold d2 in Hd2. fold cast in Hnd, Hcount.
  assert (∀ o, votes_for o vts = distinct_voters o cast) as Hvotes.
  { intros o. rewrite Hcount, votes_for_empty, distinct_voters_NoDup by done. lia. }
  assert (rows = map (λ o, MkVoteStandingRow o.1 o.2 (votes_for o.1 vts))
                     (order_by_key (map_to_list opts))) as Hrows.
  { unfold rows, opts. rewrite options_in_order. apply map_ext. intros o.
    by rewrite Hvotes. }
  split_and!.
  - rewrite Hd2, get_vote_standings_store. by rewrite Hrows.
  - unfold rows. rewrite map_map. simpl.
    change (map (λ x : Z * list N, x.1) (numbered 1 (usable_labels labels)))
      with ((numbered 1 (usable_labels labels)).*1).
    apply numbered_keys.
  - rewrite Hd2, get_total_votes_store. rewrite Hrows, (total_of_rows (λ k, votes_for k vts)).
    rewrite votes_total; [done|].
    assert (referential_integrity d2) as Hri.
    { apply run_integrity; [apply store_installed|].
      intros u v. rewrite vote_rows_store. by rewrite lookup_empty. }
    rewrite Hd2 in Hri. exact Hri.
Qed.

Lemma standings_count_the_successful_votes_witness :
  installed sample_voted ∧
  set_vote_options sample_labels sample_voted = (inr 3, sample_poll) ∧
  forallb keeps_votes sample_calls = true ∧
  get_vote_standings (run sample_calls sample_poll).2
  = (inr [MkVoteStandingRow 1 (py "Pizza") 2; MkVoteStandingRow 2 (py "Tacos") 0;
          MkVoteStandingRow 3 (py "Pizza") 1],
     (run sample_calls sample_poll).2) ∧
  get_total_votes (run sample_calls sample_poll).2
  = (inr 3, (run sample_calls sample_poll).2).
Proof.
  assert (installed sample_voted) as Hi by (split; reflexivity).
  assert (set_vote_options sample_labels sample_voted = (inr 3, sample_poll)) as Hs
    by (vm_compute; reflexivity).
  assert (forallb keeps_votes sample_calls = true) as Hk by reflexivity.
  split; [exact Hi|]. split; [exact Hs|]. split; [exact Hk|].
  destruct (standings_count_the_successful_votes
              sample_labels sample_calls sample_voted sample_poll 3 Hi Hs Hk)
    as (Hrows & _ & Htotal).
  split; [rewrite Hrows|rewrite Htotal]; reflexivity.
Defined.

(** C3 (amended): for ids that fit the 64-bit INTEGER of SQLite, [cast_vote]
    raises the UNIQUE-constraint error whenever the user has a vote row, and
    the FOREIGN KEY error when the user has none and the option does not
    exist; the two errors differ, and the [/vote] handler answers them
    differently.  In both cases the file is unchanged. *)
Theorem cast_vote_failure_kinds (d : database) (now : string) (u o : Z) :
  installed d →
  int64 u = true →
  int64 o = true →
  (is_Some (vote_rows d !! u) →
     cast_vote now u o d = (inl E_unique_votes, d) ∧
     Bot.record_vote now u o d = (inr Bot.AlreadyVoted, d)) ∧
  (vote_rows d !! u = None → option_rows d !! o = None →
     cast_vote now u o d = (inl E_foreign_key, d) ∧
     Bot.record_vote now u o d = (inr Bot.SomethingWentWrong, d)) ∧
  E_unique_votes ≠ E_foreign_key.
Proof.
  intros Hi Hu64 Ho64. destruct (installed_inv d Hi) as (opts & vts & ->).
  rewrite vote_rows_store, option_rows_store, cast_vote_store, record_vote_store.
  rewrite Hu64, Ho64. simpl. split_and!.
  - intros [v Hv]. by rewrite Hv.
  - intros Hu Ho. rewrite Hu.
    by rewrite bool_decide_eq_false_2 by (rewrite Ho; by intros [? ?]).
  - discriminate.
Qed.

Lemma cast_vote_failure_kinds_witness :
  installed sample_voted ∧
  int64 42 = true ∧ int64 2 = true ∧ int64 7 = true ∧ int64 99 = true ∧
  is_Some (vote_rows sample_voted !! 42) ∧
  cast_vote "2024-01-01 12:10:00" 42 2 sample_voted = (inl E_unique_votes, sample_voted) ∧
  vote_rows sample_voted !! 7 = None ∧
  option_rows sample_voted !! 99 = None ∧
  cast_vote "2024-01-01 12:10:00" 7 99 sample_voted = (inl E_foreign_key, sample_voted).
Proof.
  assert (installed sample_voted) as Hi by (split; reflexivity).
  assert (is_Some (vote_rows sample_voted !! 42)) as H42 by (vm_compute; eauto).
  assert (vote_rows sample_voted !! 7 = None) as H7 by reflexivity.
  assert (option_rows sample_voted !! 99 = None) as H99 by reflexivity.
  split; [exact Hi|]. do 4 (split; [reflexivity|]). split; [exact H42|].
  split.
  { exact (proj1 (proj1 (cast_vote_failure_kinds sample_voted "2024-01-01 12:10:00"
                           42 2 Hi eq_refl eq_refl) H42)). }
  split; [exact H7|]. split; [exact H99|].
  exact (proj1 (proj1 (proj2 (cast_vote_failure_kinds sample_voted
                                "2024-01-01 12:10:00" 7 99 Hi eq_refl eq_refl)) H7 H99)).
Defined.

(** C3 as stated fails: option 99 does not exist, yet [cast_vote] of a user
    who has voted raises the UNIQUE-constraint error, not the FOREIGN KEY
    error. *)
Lemma unknown_option_reported_as_duplicate :
  installed sample_voted ∧
  option_rows sample_voted !! 99 = None ∧
  cast_vote "2024-01-01 12:10:00" 42 99 sample_voted = (inl E_unique_votes, sample_voted) ∧
  cast_vote "2024-01-01 12:10:00" 42 99 sample_voted ≠ (inl E_foreign_key, sample_voted).
Proof.
  split_and!; [split; reflexivity|reflexivity|reflexivity|].
  vm_compute. discriminate.
Qed.

(** C6 (amended): every vote row refers to an existing option, in every state
    reached from a new file.  [cast_vote] returns only if the option exists;
    for an option that does not exist it raises and creates no row: when
    both ids fit the 64-bit INTEGER, the FOREIGN KEY error if the user has no
    vote and the UNIQUE-constraint error if the user has one; otherwise the
    [OverflowError] of the binding. *)
Theorem cast_vote_keeps_referential_integrity
    (d : database) (now : string) (u o : Z) :
  installed d →
  (∀ d', cast_vote now u o d = (inr (), d') → is_Some (option_rows d !! o)) ∧
  (option_rows d !! o = None →
     cast_vote now u o d
     = (inl (if int64 u && int64 o then
               match vote_rows d !! u with
               | Some _ => E_unique_votes
               | None => E_foreign_key
               end
             else E_overflow), d)) ∧
  (referential_integrity d → referential_integrity (cast_vote now u o d).2) ∧
  (∀ cs, referential_integrity (run cs (init_db empty_database).2).2).
Proof.
  intros Hi. destruct (installed_inv d Hi) as (opts & vts & ->).
  rewrite vote_rows_store, option_rows_store. split_and!.
  - intros d'. rewrite cast_vote_store. destruct (int64 u && int64 o); [|done].
    destruct (vts !! u); [done|]. case_bool_decide; done.
  - intros Ho. rewrite cast_vote_store. destruct (int64 u && int64 o); [|done].
    destruct (vts !! u); [done|].
    by rewrite bool_decide_eq_false_2 by (rewrite Ho; by intros [? ?]).
  - intros Hr.
    pose proof (next_integrity (CastVote now u o) opts vts Hr) as Hn.
    rewrite <-exec_store in Hn. simpl in Hn. unfold returning, bind in Hn.
    by destruct (cast_vote now u o (store opts vts)) as [[e|[]] d'].
  - intros cs. rewrite init_db_empty. cbn [snd].
    apply run_integrity; [apply store_installed|].
    intros u' v. rewrite vote_rows_store. by rewrite lookup_empty.
Qed.

Lemma cast_vote_keeps_referential_integrity_witness :
  installed sample_poll ∧
  option_rows sample_poll !! 99 = None ∧
  cast_vote "2024-01-01 12:10:00" 7 99 sample_poll = (inl E_foreign_key, sample_poll).
Proof.
  assert (installed sample_poll) as Hi by (split; reflexivity).
  assert (option_rows sample_poll !! 99 = None) as H99 by reflexivity.
  split; [exact Hi|]. split; [exact H99|].
  exact (proj1 (proj2 (cast_vote_keeps_referential_integrity
                         sample_poll "2024-01-01 12:10:00" 7 99 Hi)) H99).
Defined.

(** C6 as stated fails: option 0 does not exist, and [cast_vote] for it by a
    user who has voted raises the UNIQUE-constraint error instead of the
    FOREIGN KEY error. *)
Lemma missing_option_not_always_foreign_key_error :
  installed sample_two_votes ∧
  option_rows sample_two_votes !! 0 = None ∧
  (cast_vote "2024-01-01 12:20:00" 7 0 sample_two_votes).1 = inl E_unique_votes ∧
  (cast_vote "2024-01-01 12:20:00" 7 0 sample_two_votes).1 ≠ inl E_foreign_key.
Proof.
  split_and!; [split; reflexivity|reflexivity|reflexivity|].
  vm_compute. discriminate.
Qed.


(** * Further properties of [db.py] and [bot.py] *)

(** ** Trimming *)

Lemma lstrip_head s c t : lstrip s = c :: t → is_space c = false.
Proof.
  induction s as [|a s IH]; simpl; [done|].
  destruct (is_space a) eqn:Ea; [exact IH|]. by intros [= <- <-].
Qed.

Lemma lstrip_fixed c t : is_space c = false → lstrip (c :: t) = c :: t.
Proof. intros E. simpl. by rewrite E. Qed.

Lemma lstrip_snoc s c : is_space c = false → lstrip (s ++ [c]) = lstrip s ++ [c].
Proof.
  intros E. induction s as [|a s IH]; simpl.
  - by rewrite E.
  - by destruct (is_space a).
Qed.

Lemma rstrip_cons c t : is_space c = false → rstrip (c :: t) = c :: rstrip t.
Proof.
  intros E. unfold rstrip. simpl. rewrite lstrip_snoc by done.
  by rewrite rev_app_distr.
Qed.

Lemma lstrip_idem s : lstrip (lstrip s) = lstrip s.
Proof.
  destruct (lstrip s) as [|c t] eqn:E; [done|].
  apply lstrip_fixed. by apply lstrip_head in E.
Qed.

Lemma rstrip_idem s : rstrip (rstrip s) = rstrip s.
Proof. unfold rstrip. by rewrite rev_involutive, lstrip_idem. Qed.

Lemma strip_idem s : strip (strip s) = strip s.
Proof.
  unfold strip. destruct (lstrip s) as [|c t] eqn:E; [done|].
  apply lstrip_head in E. rewrite rstrip_cons by done.
  rewrite lstrip_fixed by done. rewrite <-rstrip_cons by done.
  apply rstrip_idem.
Qed.

Lemma usable_labels_trimmed labels l : l ∈ usable_labels labels → trimmed l.
Proof.
  unfold usable_labels. rewrite list_elem_of_In, filter_In, in_map_iff.
  intros [(s & <- & _) Hne]. apply bool_decide_eq_true in Hne.
  split; [done|apply strip_idem].
Qed.

Lemma usable_labels_of_trimmed labels :
  Forall trimmed labels → usable_labels labels = labels.
Proof.
  unfold usable_labels. induction 1 as [|l labels [Hne Hs] _ IH]; [done|].
  simpl. rewrite Hs, bool_decide_eq_true_2 by done. by rewrite IH.
Qed.

(** X1: the filter of [set_vote_options] returns only labels that are not
    empty and equal to their own [strip()], keeps their order and number at
    most that of the input, and applied to its own result changes nothing. *)
Theorem labels_list_trims (labels : list (list N)) :
  Forall trimmed (labels_list labels) ∧
  (length (labels_list labels) ≤ length labels)%nat ∧
  labels_list (labels_list labels) = labels_list labels.
Proof.
  rewrite !labels_list_usable.
  assert (Forall trimmed (usable_labels labels)) as Ht.
  { apply Forall_forall. intros l. apply usable_labels_trimmed. }
  split_and!; [done| |by apply usable_labels_of_trimmed].
  unfold usable_labels.
  etransitivity; [apply List.filter_length_le|]. by rewrite length_map.
Qed.

(** X2: [init_db] never raises.  It leaves a table that exists exactly as it
    is, rows and definition, creates a missing one empty with the definition
    of [SCHEMA_SQL], and run again changes nothing. *)
Theorem init_db_creates_only_missing_tables (d : database) :
  ∃ d',
    init_db d = (inr (), d') ∧
    tbl_vote_options d'
    = Some (default (OptionsTable SCHEMA_vote_options ∅) (tbl_vote_options d)) ∧
    tbl_votes d' = Some (default (VotesTable SCHEMA_votes ∅) (tbl_votes d)) ∧
    init_db d' = (inr (), d').
Proof. destruct d as [[ot|] [vt|]]; eexists; split_and!; reflexivity. Qed.

Lemma next_trimmed c opts vts :
  labels_trimmed (store opts vts) →
  labels_trimmed (store (next c (opts, vts)).1 (next c (opts, vts)).2).
Proof.
  intros Hd. destruct c as [labels| | | |now u o| | | |]; try exact Hd; simpl.
  - destruct (_ <? _)%nat; [exact Hd|]. destruct (bool_decide _); [|exact Hd].
    simpl. intros k l. rewrite option_rows_store, lookup_enumerate_from.
    case_decide; [|done]. intros Hl%list_elem_of_lookup_2.
    rewrite labels_list_usable in Hl. by apply usable_labels_trimmed in Hl.
  - destruct (int64 u && int64 o); [|exact Hd].
    destruct (vts !! u); [exact Hd|]. by destruct (bool_decide _).
Qed.

Lemma next_option_count c opts vts :
  size opts ≠ 1%nat → size (next c (opts, vts)).1 ≠ 1%nat.
Proof.
  intros Hd. destruct c as [labels| | | |now u o| | | |]; try exact Hd; simpl.
  - destruct (Nat.ltb_spec (length (labels_list labels)) 2); [exact Hd|].
    destruct (bool_decide _); [|exact Hd]. simpl.
    rewrite enumerate_from_numbered.
    rewrite <-length_map_to_list, map_to_list_to_map
      by (rewrite numbered_keys; apply NoDup_seqZ).
    unfold numbered. rewrite length_zip_with, length_seqZ. lia.
  - destruct (int64 u && int64 o); [|exact Hd].
    destruct (vts !! u); [exact Hd|]. by destruct (bool_decide _).
Qed.

Lemma run_store cs : ∀ opts vts,
  labels_trimmed (store opts vts) → size opts ≠ 1%nat →
  ∃ opts' vts', (run cs (store opts vts)).2 = store opts' vts' ∧
                labels_trimmed (store opts' vts') ∧ size opts' ≠ 1%nat.
Proof.
  induction cs as [|c cs IH]; intros opts vts Ht Hn; [by eauto|].
  rewrite run_cons. cbn [snd]. rewrite exec_store.
  apply IH; [by apply next_trimmed|by apply next_option_count].
Qed.

(** X3: whatever calls follow [init_db] on a new file, both tables keep the
    definitions of [SCHEMA_SQL], every stored label is non-empty and
    trimmed, and the number of options is never exactly one. *)
Theorem store_invariants (cs : list call) :
  let d := (run cs (init_db empty_database).2).2 in
  installed d ∧ labels_trimmed d ∧ size (option_rows d) ≠ 1%nat.
Proof.
  intros d. unfold d. rewrite init_db_empty. cbn [snd].
  destruct (run_store cs ∅ ∅) as (opts & vts & -> & Ht & Hn).
  - intros k l. by rewrite option_rows_store, lookup_empty.
  - by rewrite map_size_empty.
  - split_and!; [apply store_installed|done|done].
Qed.

Lemma cast_vote_error now u o d e :
  (cast_vote now u o d).1 = inl e → (cast_vote now u o d).2 = d.
Proof.
  unfold cast_vote, with_connection, bind, pragma_foreign_keys_on, dml, commit.
  cbn [connect working durable foreign_keys in_transaction].
  by destruct (insert_into_votes now u o true d).
Qed.

Lemma set_vote_options_error labels d e :
  (set_vote_options labels d).1 = inl e → (set_vote_options labels d).2 = d.
Proof.
  rewrite set_vote_options_cases. destruct (_ <? _)%nat; [done|].
  by destruct (tbl_votes d), (tbl_vote_options d),
    (first_bind_error (labels_list labels)).
Qed.

Lemma clear_votes_cases d :
  clear_votes d
  = (inr (), {| tbl_vote_options := tbl_vote_options d;
                tbl_votes := Some (VotesTable CLEAR_votes ∅) |}).
Proof. reflexivity. Qed.

(** X4: a call that raises leaves the file exactly as it was, whatever the
    call and whatever the state of the file (tables missing included). *)
Theorem failed_call_changes_nothing (c : call) (d : database) (e : error) :
  (exec c d).1 = inl e → (exec c d).2 = d.
Proof.
  destruct c as [labels| |o|u|now u o| | | |o]; simpl; unfold returning, bind.
  - pose proof (set_vote_options_error labels d) as H.
    destruct (set_vote_options labels d) as [[e'|n] d']; simpl in *; [eauto|done].
  - unfold list_vote_options, with_connection, query; simpl.
    by destruct (select_options d).
  - unfold option_exists, with_connection, bind, query, ret; simpl.
    by destruct (select_1_from_vote_options o d).
  - unfold user_has_voted, with_connection, bind, query, ret; simpl.
    by destruct (select_1_from_votes u d).
  - pose proof (cast_vote_error now u o d) as H.
    destruct (cast_vote now u o d) as [[e'|[]] d']; simpl in *; [eauto|done].
  - done.
  - unfold get_vote_standings, with_connection, bind, query, ret,
      pragma_foreign_keys_on; simpl.
    by destruct (select_standings d).
  - unfold get_total_votes, with_connection, bind, query, ret; simpl.
    by destruct (select_count_votes d).
  - unfold get_vote_label, with_connection, query; simpl.
    by destruct (select_label o d).
Qed.

Lemma failed_call_changes_nothing_witness :
  (exec (CastVote "2024-01-01 12:30:00" 42 2) sample_voted).1 = inl E_unique_votes ∧
  (exec (CastVote "2024-01-01 12:30:00" 42 2) sample_voted).2 = sample_voted.
Proof.
  assert ((exec (CastVote "2024-01-01 12:30:00" 42 2) sample_voted).1
          = inl E_unique_votes) as H by reflexivity.
  split; [exact H|].
  exact (failed_call_changes_nothing _ _ _ H).
Defined.

Lemma sorted_keys_strict {A} (l : list (Z * A)) :
  Sorted key_le l → NoDup (l.*1) →
  StronglySorted (λ a b : Z * A, a.1 < b.1) l.
Proof.
  intros Hs%(Sorted_StronglySorted key_le). induction Hs as [|x l Hl IH Hx].
  - constructor.
  - csimpl. intros [Hx' Hnd]%NoDup_cons. constructor; [by apply IH|].
    apply Forall_forall. intros y Hy.
    rewrite Forall_forall in Hx. specialize (Hx y Hy). unfold key_le in Hx.
    assert (x.1 ≠ y.1); [|lia].
    intros E. apply Hx'. rewrite E. by apply list_elem_of_fmap_2.
Qed.

Lemma order_by_key_strict {A} (m : gmap Z A) :
  StronglySorted (λ a b : Z * A, a.1 < b.1) (order_by_key (map_to_list m)).
Proof.
  apply sorted_keys_strict; [apply order_by_key_sorted|].
  rewrite order_by_key_perm. apply NoDup_fst_map_to_list.
Qed.

Lemma elem_of_order_by_key {A} (m : gmap Z A) k a :
  (k, a) ∈ order_by_key (map_to_list m) ↔ m !! k = Some a.
Proof. by rewrite order_by_key_perm, elem_of_map_to_list. Qed.

(** X5: when [list_vote_options] returns, its rows are in strictly ascending
    order of [option_id] and are exactly the rows of [vote_options]; it
    returns whenever the table exists, and it leaves the file unchanged. *)
Theorem list_vote_options_sorted_and_complete
    (d : database) (rows : list (Z * list N)) :
  (list_vote_options d).1 = inr rows →
  StronglySorted (λ a b : Z * list N, a.1 < b.1) rows ∧
  (∀ k l, (k, l) ∈ rows ↔ option_rows d !! k = Some l) ∧
  is_Some (tbl_vote_options d) ∧
  (list_vote_options d).2 = d.
Proof.
  unfold list_vote_options, with_connection, query, select_options, option_rows.
  cbn [connect working durable fst snd].
  destruct (tbl_vote_options d) as [ot|]; [|done]. intros [= <-].
  split_and!; [apply order_by_key_strict| |by eauto|done].
  intros k l. apply elem_of_order_by_key.
Qed.

Lemma list_vote_options_sorted_and_complete_witness :
  (list_vote_options sample_voted).1
  = inr [(1, py "Pizza"); (2, py "Tacos"); (3, py "Pizza")] ∧
  StronglySorted (λ a b : Z * list N, a.1 < b.1)
    [(1, py "Pizza"); (2, py "Tacos"); (3, py "Pizza")].
Proof.
  assert ((list_vote_options sample_voted).1
          = inr [(1, py "Pizza"); (2, py "Tacos"); (3, py "Pizza")]) as H
    by reflexivity.
  split; [exact H|].
  exact (proj1 (list_vote_options_sorted_and_complete _ _ H)).
Defined.

Lemma get_vote_label_store o opts vts :
  get_vote_label o (store opts vts)
  = if int64 o then (inr (opts !! o), store opts vts)
    else (inl E_overflow, store opts vts).
Proof.
  unfold get_vote_label, with_connection, query, select_label, bind_int; simpl.
  by destruct (int64 o).
Qed.

(** X6: on an installed store the three ways to look up an option agree.
    For an id that fits the 64-bit INTEGER, [option_exists] is true exactly
    when [get_vote_label] returns a label, and that label is the one
    [list_vote_options] lists under this id; for any other id both raise
    [OverflowError]. *)
Theorem option_lookups_agree (d : database) (o : Z) :
  installed d →
  (int64 o = true →
     ∃ b lbl rows,
       option_exists o d = (inr b, d) ∧
       get_vote_label o d = (inr lbl, d) ∧
       list_vote_options d = (inr rows, d) ∧
       (b = true ↔ is_Some lbl) ∧
       (∀ l, lbl = Some l ↔ (o, l) ∈ rows)) ∧
  (int64 o = false →
     option_exists o d = (inl E_overflow, d) ∧
     get_vote_label o d = (inl E_overflow, d)).
Proof.
  intros Hi. destruct (installed_inv d Hi) as (opts & vts & ->).
  rewrite option_exists_store, get_vote_label_store, list_vote_options_store.
  split; intros ->; [|done].
  eexists _, _, _. split_and!; try reflexivity.
  - apply bool_decide_eq_true.
  - intros l. by rewrite elem_of_order_by_key.
Qed.

Lemma option_lookups_agree_witness :
  installed sample_voted ∧
  int64 2 = true ∧
  get_vote_label 2 sample_voted = (inr (Some (py "Tacos")), sample_voted) ∧
  option_exists 2 sample_voted = (inr true, sample_voted).
Proof.
  assert (installed sample_voted) as Hi by (split; reflexivity).
  assert (get_vote_label 2 sample_voted = (inr (Some (py "Tacos")), sample_voted))
    as Hlabel by reflexivity.
  split; [exact Hi|]. split; [reflexivity|]. split; [exact Hlabel|].
  destruct (proj1 (option_lookups_agree sample_voted 2 Hi) eq_refl)
    as (b & lbl & rows & Hb & Hl & _ & Hiff & _).
  rewrite Hb. f_equal. f_equal. apply Hiff.
  rewrite Hlabel in Hl. injection Hl as <-. by eexists.
Defined.

(** X7: a [cast_vote] that returns was made by a user without a vote for an
    existing option.  Afterwards [user_has_voted] is true for that user and
    as before for every other user, the options are as before, the total
    has grown by one, and in the standings the count of the chosen option
    has grown by one while all other rows are as before. *)
Theorem cast_vote_records_one_vote
    (d d' : database) (now : string) (u o : Z) :
  installed d →
  cast_vote now u o d = (inr (), d') →
  user_has_voted u d = (inr false, d) ∧
  option_exists o d = (inr true, d) ∧
  user_has_voted u d' = (inr true, d') ∧
  (∀ u', u' ≠ u → (user_has_voted u' d').1 = (user_has_voted u' d).1) ∧
  (list_vote_options d').1 = (list_vote_options d).1 ∧
  (∃ n, get_total_votes d = (inr n, d) ∧ get_total_votes d' = (inr (n + 1), d')) ∧
  (∃ rows,
     get_vote_standings d = (inr rows, d) ∧
     get_vote_standings d'
     = (inr (map (λ r, if bool_decide (option_id r = o)
                       then MkVoteStandingRow (option_id r) (label r) (votes r + 1)
                       else r) rows), d')).
Proof.
  intros Hi. destruct (installed_inv d Hi) as (opts & vts & ->).
  rewrite cast_vote_store.
  destruct (int64 u) eqn:Eu; [|done]. destruct (int64 o) eqn:Eo; [|done].
  cbn [andb]. destruct (vts !! u) eqn:Hu; [done|].
  case_bool_decide as Ho; [|done]. intros [= <-].
  rewrite !user_has_voted_store, option_exists_store, !list_vote_options_store,
    !get_total_votes_store, !get_vote_standings_store, Eu, Eo.
  split_and!.
  - by rewrite Hu, bool_decide_eq_false_2 by (by intros [? ?]).
  - by rewrite bool_decide_eq_true_2.
  - by rewrite lookup_insert_eq, bool_decide_eq_true_2 by eauto.
  - intros u' Hne. rewrite !user_has_voted_store.
    destruct (int64 u'); [|done]. cbn [fst].
    by rewrite lookup_insert_ne.
  - done.
  - eexists. split; [reflexivity|].
    rewrite map_size_insert_None by done. do 2 f_equal. lia.
  - eexists. split; [reflexivity|]. f_equal. f_equal.
    rewrite map_map. apply map_ext. intros r. simpl.
    rewrite votes_for_insert by done. simpl.
    case_bool_decide as E.
    + rewrite bool_decide_eq_true_2 by done. f_equal. lia.
    + by rewrite bool_decide_eq_false_2 by done.
Qed.

Lemma cast_vote_records_one_vote_witness :
  installed sample_poll ∧
  cast_vote "2024-01-01 12:00:00" 42 1 sample_poll = (inr (), sample_voted) ∧
  user_has_voted 42 sample_voted = (inr true, sample_voted).
Proof.
  assert (installed sample_poll) as Hi by (split; reflexivity).
  assert (cast_vote "2024-01-01 12:00:00" 42 1 sample_poll = (inr (), sample_voted))
    as Hc by reflexivity.
  split; [exact Hi|]. split; [exact Hc|].
  exact (proj1 (proj2 (proj2 (cast_vote_records_one_vote _ _ _ _ _ Hi Hc)))).
Defined.

(** X8: [clear_votes] never raises, whatever the file.  It leaves
    [vote_options] as it is and a [votes] table without rows, with the
    definition of [SCHEMA_SQL], also when that table was missing.  On an
    installed store [user_has_voted] is afterwards false for every user id
    that fits the 64-bit INTEGER, the total is 0 and every row of the
    standings has count 0. *)
Theorem clear_votes_always_returns (d : database) :
  ∃ d',
    clear_votes d = (inr (), d') ∧
    tbl_vote_options d' = tbl_vote_options d ∧
    tbl_votes d' = Some (VotesTable SCHEMA_votes ∅) ∧
    (installed d →
       (∀ u, int64 u = true → user_has_voted u d' = (inr false, d')) ∧
       get_total_votes d' = (inr 0, d') ∧
       (list_vote_options d').1 = (list_vote_options d).1 ∧
       ∃ rows, get_vote_standings d' = (inr rows, d') ∧
               Forall (λ r, votes r = 0) rows).
Proof.
  rewrite clear_votes_cases. eexists. split_and!; try reflexivity.
  intros Hi. destruct (installed_inv d Hi) as (opts & vts & ->).
  change {| tbl_vote_options := _; tbl_votes := _ |} with (store opts ∅).
  split_and!.
  - intros u Eu. rewrite user_has_voted_store, Eu, lookup_empty.
    by rewrite bool_decide_eq_false_2 by (by intros [? ?]).
  - by rewrite get_total_votes_store, map_size_empty.
  - done.
  - eexists. rewrite get_vote_standings_store. split; [reflexivity|].
    apply Forall_forall. intros r. rewrite list_elem_of_In, in_map_iff.
    intros (x & <- & _). simpl. apply votes_for_empty.
Qed.

Lemma clear_votes_always_returns_witness :
  installed sample_voted ∧
  clear_votes empty_database
  = (inr (), {| tbl_vote_options := None;
                tbl_votes := Some (VotesTable SCHEMA_votes ∅) |}) ∧
  user_has_voted 42 (clear_votes sample_voted).2
  = (inr false, (clear_votes sample_voted).2).
Proof.
  assert (installed sample_voted) as Hi by (split; reflexivity).
  split; [exact Hi|]. split; [reflexivity|].
  destruct (clear_votes_always_returns sample_voted) as (d' & Hc & _ & _ & Hr).
  rewrite Hc. cbn [snd]. exact (proj1 (Hr Hi) 42 eq_refl).
Defined.

Lemma run_reachable_store cs :
  ∃ opts vts, (run cs (init_db empty_database).2).2 = store opts vts.
Proof.
  apply installed_inv. rewrite init_db_empty. cbn [snd].
  apply run_installed, store_installed.
Qed.

(** X9: in every state reached from a new file, [get_total_votes] is the sum
    of the counts of [get_vote_standings], both return, and no vote is left
    out of the standings. *)
Theorem total_is_sum_of_standings (cs : list call) :
  let d := (run cs (init_db empty_database).2).2 in
  ∃ rows,
    get_vote_standings d = (inr rows, d) ∧
    get_total_votes d = (inr (total_of rows), d) ∧
    total_of rows = Z.of_nat (size (vote_rows d)).
Proof.
  intros d.
  assert (referential_integrity d) as Hri.
  { unfold d. rewrite init_db_empty. cbn [snd].
    apply run_integrity; [apply store_installed|].
    intros u v. rewrite vote_rows_store. by rewrite lookup_empty. }
  destruct (run_reachable_store cs) as (opts & vts & E). fold d in E.
  rewrite E in Hri |- *.
  eexists. rewrite get_vote_standings_store, get_total_votes_store, vote_rows_store.
  split; [reflexivity|].
  rewrite (total_of_rows (λ k, votes_for k vts)), votes_total; done.
Qed.

(** X10: on an installed store the standings have one row per listed option,
    with the same ids and labels in the same order as [list_vote_options];
    the count of a row is the number of vote rows for its option, between 0
    and the total. *)
Theorem standings_follow_the_option_list (d : database) :
  installed d →
  ∃ rows opts total,
    get_vote_standings d = (inr rows, d) ∧
    list_vote_options d = (inr opts, d) ∧
    get_total_votes d = (inr total, d) ∧
    map (λ r, (option_id r, label r)) rows = opts ∧
    Forall (λ r, votes r = votes_for (option_id r) (vote_rows d) ∧
                 0 ≤ votes r ≤ total) rows.
Proof.
  intros Hi. destruct (installed_inv d Hi) as (opts & vts & ->).
  eexists _, _, _.
  rewrite get_vote_standings_store, list_vote_options_store, get_total_votes_store.
  split_and!; try reflexivity.
  - rewrite map_map. simpl. induction (order_by_key _) as [|[k l] rest IH]; [done|].
    simpl. by rewrite IH.
  - apply Forall_forall. intros r. rewrite list_elem_of_In, in_map_iff.
    intros (x & <- & _). simpl. rewrite vote_rows_store. split; [done|].
    unfold votes_for. rewrite <-length_map_to_list.
    pose proof (List.filter_length_le
                  (λ uv : Z * vote_row, bool_decide (v_option_id uv.2 = x.1))
                  (map_to_list vts)).
    lia.
Qed.

Lemma standings_follow_the_option_list_witness :
  installed sample_standings ∧
  ∃ rows,
    get_vote_standings sample_standings = (inr rows, sample_standings) ∧
    list_vote_options sample_standings
    = (inr (map (λ r, (option_id r, label r)) rows), sample_standings).
Proof.
  assert (installed sample_standings) as Hi by (split; reflexivity).
  split; [exact Hi|].
  destruct (standings_follow_the_option_list sample_standings Hi)
    as (rows & opts & total & Hs & Hl & _ & Hmap & _).
  exists rows. split; [exact Hs|]. by rewrite Hl, Hmap.
Defined.

(** ** Texts *)

Lemma line_feeds_app s t : line_feeds (s ++ t) = (line_feeds s + line_feeds t)%nat.
Proof. unfold line_feeds. by rewrite List.filter_app, length_app. Qed.

Lemma line_feeds_digits u : line_feeds (digits u) = 0%nat.
Proof. induction u; simpl; done. Qed.

Lemma line_feeds_str_of_int n : line_feeds (str_of_int n) = 0%nat.
Proof.
  unfold str_of_int. destruct (Z.to_int n); [apply line_feeds_digits|].
  change (line_feeds (45%N :: digits d)) with (line_feeds (digits d)).
  apply line_feeds_digits.
Qed.

Lemma line_feeds_join parts :
  parts ≠ [] →
  line_feeds (join [LF] parts)
  = (foldr (λ p acc, line_feeds p + acc) 0 parts + (length parts - 1))%nat.
Proof.
  induction parts as [|p [|q rest] IH]; intros Hne; [done|simpl; lia|].
  change (join [LF] (p :: q :: rest)) with (p ++ [LF] ++ join [LF] (q :: rest)).
  rewrite !line_feeds_app, IH by done. simpl length. simpl foldr.
  change (line_feeds [LF]) with 1%nat. lia.
Qed.

Lemma line_feeds_lines {A} (f : A → list N) (l : list A) :
  (∀ x, x ∈ l → line_feeds (f x) = 0%nat) →
  foldr (λ p acc, line_feeds p + acc)%nat 0%nat (map f l) = 0%nat.
Proof.
  induction l as [|x l IH]; intros H; [done|]. simpl.
  rewrite H by left. apply IH. intros y Hy. apply H. by right.
Qed.

Lemma foldr_line_feeds_app l1 l2 :
  foldr (λ p acc, line_feeds p + acc)%nat 0%nat (l1 ++ l2)
  = (foldr (λ p acc, line_feeds p + acc) 0 l1
     + foldr (λ p acc, line_feeds p + acc) 0 l2)%nat.
Proof. induction l1; simpl; lia. Qed.

Lemma join_snoc sep parts x :
  parts ≠ [] → join sep (parts ++ [x]) = join sep parts ++ sep ++ x.
Proof.
  induction parts as [|p [|q rest] IH]; intros Hne; [done|done|].
  change (join sep ((p :: q :: rest) ++ [x]))
    with (p ++ sep ++ join sep ((q :: rest) ++ [x])).
  rewrite IH by done.
  change (join sep (p :: q :: rest)) with (p ++ sep ++ join sep (q :: rest)).
  by rewrite <-!app_assoc.
Qed.

(** X11: without rows [_format_standings] returns the fixed text whatever
    the total.  With rows the text ends with the line of the total, and if
    no label contains a line feed it has one line per row, an empty line
    and the total line. *)
Theorem format_standings_lines (rows : list VoteStandingRow) (total : Z) :
  Commands._format_standings [] total = Commands.NO_OPTIONS_USE_SETVOTE ∧
  (rows ≠ [] →
     (∃ before, Commands._format_standings rows total
                = before ++ [LF] ++ py "Total votes: " ++ str_of_int total) ∧
     (Forall (λ r, line_feeds (label r) = 0%nat) rows →
        line_feeds (Commands._format_standings rows total) = (length rows + 1)%nat)).
Proof.
  split; [done|]. intros Hne. destruct rows as [|r rows]; [done|]. clear Hne.
  unfold Commands._format_standings.
  set (line := λ r, str_of_int (option_id r) ++ py ". " ++ label r
                    ++ py " " ++ [8212%N] ++ py " " ++ str_of_int (votes r)).
  set (last := py "Total votes: " ++ str_of_int total).
  split.
  - eexists. apply join_snoc. by destruct (map line (r :: rows)).
  - intros Hl. rewrite line_feeds_join by (by destruct (map line (r :: rows))).
    rewrite !foldr_line_feeds_app, !length_app, length_map. simpl foldr at 2 3.
    rewrite line_feeds_lines.
    + unfold last. rewrite line_feeds_app, line_feeds_str_of_int. simpl. lia.
    + intros x Hx. rewrite Forall_forall in Hl. unfold line.
      rewrite !line_feeds_app, !line_feeds_str_of_int, (Hl x Hx). done.
Qed.

Lemma format_standings_lines_witness :
  [MkVoteStandingRow 1 (py "Pizza") 2; MkVoteStandingRow 2 (py "Tacos") 0] ≠ [] ∧
  line_feeds (Commands._format_standings
                [MkVoteStandingRow 1 (py "Pizza") 2; MkVoteStandingRow 2 (py "Tacos") 0] 2)
  = 3%nat.
Proof.
  assert ([MkVoteStandingRow 1 (py "Pizza") 2; MkVoteStandingRow 2 (py "Tacos") 0] ≠ [])
    as Hne by discriminate.
  split; [exact Hne|].
  apply (proj2 (proj2 (format_standings_lines _ 2) Hne)).
  repeat constructor.
Defined.

(** X12: [_db_path] never returns an empty path or one with surrounding
    whitespace: it is the trimmed value of the variable, and ["votes.db"]
    when the variable is not set or blank. *)
Theorem db_path_is_trimmed (env : option (list N)) :
  trimmed (Commands._db_path env) ∧
  (∀ v, env = Some v → strip v ≠ [] → Commands._db_path env = strip v) ∧
  (env = None ∨ (∃ v, env = Some v ∧ strip v = []) →
     Commands._db_path env = py "votes.db").
Proof.
  assert (trimmed (py "votes.db")) as Hd by (split; [discriminate|reflexivity]).
  unfold Commands._db_path. split_and!.
  - destruct (strip (default (py "votes.db") env)) as [|c t] eqn:E; [exact Hd|].
    simpl. split; [done|]. rewrite <-E. apply strip_idem.
  - intros v -> Hv. simpl. destruct (strip v); done.
  - intros [->|(v & -> & Hv)]; [reflexivity|]. simpl. by rewrite Hv.
Qed.

(** ** The commands *)

Lemma setvote_labels_length o1 o2 o3 o4 o5 o6 o7 o8 o9 o10 :
  (2 ≤ length (Commands.setvote_labels o1 o2 o3 o4 o5 o6 o7 o8 o9 o10) ≤ 10)%nat.
Proof.
  unfold Commands.setvote_labels.
  destruct o3, o4, o5, o6, o7, o8, o9, o10; simpl; lia.
Qed.

Lemma usable_labels_length labels :
  (length (usable_labels labels) ≤ length labels)%nat.
Proof.
  unfold usable_labels. etransitivity; [apply List.filter_length_le|].
  by rewrite length_map.
Qed.

(** X13: [/setvote] with at least two usable labels among its arguments,
    each of which encodes as UTF-8 (no lone surrogate), on an installed
    store: the options become the usable labels numbered from 1, at most 10
    of them, all votes are gone, and the ephemeral reply reports their
    number and lists them. *)
Theorem setvote_defines_the_poll
    (option1 option2 : list N)
    (option3 option4 option5 option6 option7 option8 option9 option10
       : option (list N)) (d : database) :
  let labels := Commands.setvote_labels option1 option2 option3 option4 option5
                  option6 option7 option8 option9 option10 in
  let options := numbered 1 (usable_labels labels) in
  let count := Z.of_nat (length (usable_labels labels)) in
  installed d →
  (2 ≤ length (usable_labels labels))%nat →
  Forall encodable (usable_labels labels) →
  ∃ d',
    Commands.setvote option1 option2 option3 option4 option5 option6 option7
      option8 option9 option10 d
    = (inr (Commands.Response
              (py "Vote options set (" ++ str_of_int count
               ++ py "). Existing votes were cleared." ++ [LF; LF]
               ++ Commands.rendered options) true), d') ∧
    list_vote_options d' = (inr options, d') ∧
    vote_rows d' = ∅ ∧
    2 ≤ count ≤ 10.
Proof.
  intros labels options count Hi Hge Henc.
  destruct (installed_inv d Hi) as (opts & vts & ->).
  unfold Commands.setvote, Commands.try_except_ValueError, bind. fold labels.
  rewrite set_vote_options_store by (by rewrite labels_list_usable).
  rewrite labels_list_usable. cbn [ret]. unfold ret at 1.
  rewrite list_vote_options_store, options_in_order.
  eexists. split_and!; try reflexivity.
  - by rewrite list_vote_options_store, options_in_order.
  - unfold count. lia.
  - unfold count. pose proof (usable_labels_length labels).
    pose proof (setvote_labels_length option1 option2 option3 option4 option5
                  option6 option7 option8 option9 option10).
    fold labels in H0. lia.
Qed.

Lemma setvote_defines_the_poll_witness :
  installed sample_voted ∧
  (2 ≤ length (usable_labels
                 (Commands.setvote_labels (py "Sushi") (py "  ") None
                    (Some (py " Salad")) None None None None None None)))%nat ∧
  Forall encodable
    (usable_labels
       (Commands.setvote_labels (py "Sushi") (py "  ") None
          (Some (py " Salad")) None None None None None None)) ∧
  (list_vote_options
     (Commands.setvote (py "Sushi") (py "  ") None (Some (py " Salad"))
        None None None None None None sample_voted).2).1
  = inr [(1, py "Sushi"); (2, py "Salad")].
Proof.
  assert (installed sample_voted) as Hi by (split; reflexivity).
  assert (2 ≤ length (usable_labels
                 (Commands.setvote_labels (py "Sushi") (py "  ") None
                    (Some (py " Salad")) None None None None None None)))%nat
    as Hge by (vm_compute; lia).
  assert (Forall encodable
            (usable_labels
               (Commands.setvote_labels (py "Sushi") (py "  ") None
                  (Some (py " Salad")) None None None None None None)))
    as Henc by (apply (bool_decide_unpack _); vm_compute; exact I).
  split; [exact Hi|]. split; [exact Hge|]. split; [exact Henc|].
  destruct (setvote_defines_the_poll (py "Sushi") (py "  ") None
              (Some (py " Salad")) None None None None None None sample_voted Hi Hge
              Henc)
    as (d' & Hs & Hl & _).
  rewrite Hs. cbn [snd]. by rewrite Hl.
Defined.

(** X14: [/setvote] with fewer than two usable labels answers with the text
    of the [ValueError], ephemerally, and leaves the file unchanged, in
    every state of the file. *)
Theorem setvote_reports_too_few_options
    (option1 option2 : list N)
    (option3 option4 option5 option6 option7 option8 option9 option10
       : option (list N)) (d : database) :
  (length (usable_labels
             (Commands.setvote_labels option1 option2 option3 option4 option5
                option6 option7 option8 option9 option10)) < 2)%nat →
  Commands.setvote option1 option2 option3 option4 option5 option6 option7
    option8 option9 option10 d
  = (inr (Commands.Response
            (py "At least 2 non-empty vote options are required.") true), d).
Proof.
  intros Hlt. unfold Commands.setvote, Commands.try_except_ValueError, bind.
  rewrite set_vote_options_cases, labels_list_usable.
  by destruct (Nat.ltb_spec
                 (length (usable_labels
                    (Commands.setvote_labels option1 option2 option3 option4
                       option5 option6 option7 option8 option9 option10))) 2);
    [|lia].
Qed.

Lemma setvote_reports_too_few_options_witness :
  (length (usable_labels
             (Commands.setvote_labels (py "only one") (py "   ") None None None
                None None None None None)) < 2)%nat ∧
  (Commands.setvote (py "only one") (py "   ") None None None None None None
     None None sample_voted).2 = sample_voted.
Proof.
  assert (length (usable_labels
             (Commands.setvote_labels (py "only one") (py "   ") None None None
                None None None None None)) < 2)%nat as Hlt by (vm_compute; lia).
  split; [exact Hlt|].
  by rewrite (setvote_reports_too_few_options _ _ _ _ _ _ _ _ _ _ sample_voted Hlt).
Defined.

(** X15: [/setvote] catches only the [ValueError].  With valid labels on a
    file where a table is missing (no [init_db] has run) the
    [OperationalError] of sqlite leaves the command, and the file is
    unchanged. *)
Theorem setvote_needs_the_tables
    (option1 option2 : list N)
    (option3 option4 option5 option6 option7 option8 option9 option10
       : option (list N)) (d : database) :
  (2 ≤ length (usable_labels
                 (Commands.setvote_labels option1 option2 option3 option4 option5
                    option6 option7 option8 option9 option10)))%nat →
  tbl_votes d = None ∨ tbl_vote_options d = None →
  ∃ msg,
    Commands.setvote option1 option2 option3 option4 option5 option6 option7
      option8 option9 option10 d
    = (inl (OperationalError msg), d).
Proof.
  intros Hge Hmiss. unfold Commands.setvote, Commands.try_except_ValueError, bind.
  rewrite set_vote_options_cases, labels_list_usable.
  destruct (Nat.ltb_spec
              (length (usable_labels
                 (Commands.setvote_labels option1 option2 option3 option4
                    option5 option6 option7 option8 option9 option10))) 2);
    [lia|].
  destruct (tbl_votes d), (tbl_vote_options d), Hmiss; try done; by eexists.
Qed.

Lemma setvote_needs_the_tables_witness :
  (2 ≤ length (usable_labels
                 (Commands.setvote_labels (py "a") (py "b") None None None None
                    None None None None)))%nat ∧
  (Commands.setvote (py "a") (py "b") None None None None None None None None
     empty_database).2
  = empty_database.
Proof.
  assert (2 ≤ length (usable_labels
                 (Commands.setvote_labels (py "a") (py "b") None None None None
                    None None None None)))%nat as Hge by (vm_compute; lia).
  split; [exact Hge|].
  destruct (setvote_needs_the_tables (py "a") (py "b") None None None None None
              None None None empty_database Hge (or_introl eq_refl)) as [msg Hs].
  by rewrite Hs.
Defined.

(** A file in which both tables exist, whatever their definitions. *)
Lemma init_db_tables d :
  ∃ ot vt,
    init_db d = (inr (), Database (Some ot) (Some vt)) ∧
    ot_rows ot = option_rows d ∧ vt_rows vt = vote_rows d ∧
    (installed d → Database (Some ot) (Some vt) = d).
Proof.
  destruct d as [[ot|] [vt|]]; eexists _, _; split_and!; try reflexivity;
    intros [Ho Hv]; simplify_eq/=.
Qed.

Lemma user_has_voted_tables u ot vt :
  user_has_voted u (Database (Some ot) (Some vt))
  = if int64 u
    then (inr (bool_decide (is_Some (vt_rows vt !! u))), Database (Some ot) (Some vt))
    else (inl E_overflow, Database (Some ot) (Some vt)).
Proof.
  unfold user_has_voted, with_connection, bind, query, ret, select_1_from_votes,
    bind_int; simpl.
  destruct (int64 u); [|done].
  f_equal. f_equal. apply bool_decide_ext.
  destruct (vt_rows vt !! u); simpl; split; intros H; eauto; try done; by destruct H.
Qed.

Lemma option_exists_tables o ot vt :
  option_exists o (Database (Some ot) (Some vt))
  = if int64 o
    then (inr (bool_decide (is_Some (ot_rows ot !! o))), Database (Some ot) (Some vt))
    else (inl E_overflow, Database (Some ot) (Some vt)).
Proof.
  unfold option_exists, with_connection, bind, query, ret,
    select_1_from_vote_options, bind_int; simpl.
  destruct (int64 o); [|done].
  f_equal. f_equal. apply bool_decide_ext.
  destruct (ot_rows ot !! o); simpl; split; intros H; eauto; try done; by destruct H.
Qed.

Lemma cast_vote_tables now u o ot vt :
  cast_vote now u o (Database (Some ot) (Some vt)) =
    if int64 u && int64 o then
      match vt_rows vt !! u with
      | Some _ => (inl E_unique_votes, Database (Some ot) (Some vt))
      | None =>
          if bool_decide (is_Some (ot_rows ot !! o))
          then (inr (), Database (Some ot)
                          (Some (set_vote_rows vt (<[u := VoteRow o now]> (vt_rows vt)))))
          else (inl E_foreign_key, Database (Some ot) (Some vt))
      end
    else (inl E_overflow, Database (Some ot) (Some vt)).
Proof.
  unfold cast_vote, with_connection, bind, dml, pragma_foreign_keys_on, commit; simpl.
  unfold insert_into_votes, bind_int; simpl.
  destruct (int64 u); [|reflexivity]. destruct (int64 o); [|reflexivity]. simpl.
  destruct (vt_rows vt !! u); [reflexivity|].
  destruct (bool_decide _); reflexivity.
Qed.

Lemma vote_tables now u o ot vt :
  Bot.vote now u o (Database (Some ot) (Some vt)) =
    if int64 u then
      match vt_rows vt !! u with
      | Some _ => (inr Bot.AlreadyVoted, Database (Some ot) (Some vt))
      | None =>
          if int64 o then
            if bool_decide (is_Some (ot_rows ot !! o))
            then (inr Bot.ThankYou,
                  Database (Some ot)
                    (Some (set_vote_rows vt (<[u := VoteRow o now]> (vt_rows vt)))))
            else (inr (match order_by_key (map_to_list (ot_rows ot)) with
                       | [] => Bot.NoOptionsYet
                       | os => Bot.InvalidChoice os
                       end), Database (Some ot) (Some vt))
          else (inl E_overflow, Database (Some ot) (Some vt))
      end
    else (inl E_overflow, Database (Some ot) (Some vt)).
Proof.
  unfold Bot.vote, bind.
  assert (init_db (Database (Some ot) (Some vt))
          = (inr (), Database (Some ot) (Some vt))) as -> by reflexivity.
  rewrite user_has_voted_tables. destruct (int64 u) eqn:Eu; [|done].
  destruct (vt_rows vt !! u) eqn:Hu.
  - by rewrite bool_decide_eq_true_2 by eauto.
  - rewrite bool_decide_eq_false_2 by (by intros [? ?]).
    rewrite option_exists_tables. destruct (int64 o) eqn:Eo; [|done].
    destruct (bool_decide (is_Some (ot_rows ot !! o))) eqn:Ho; cbn [negb].
    + unfold Bot.record_vote, try_except, bind.
      by rewrite cast_vote_tables, Eu, Eo, Hu, Ho.
    + unfold list_vote_options, with_connection, query, select_options; simpl.
      by destruct (order_by_key _).
Qed.

Lemma init_db_twice d : init_db (init_db d).2 = (inr (), (init_db d).2).
Proof. by destruct d as [[ot|] [vt|]]. Qed.

(** The handler starts with [init_db], so it runs as on the installed file. *)
Lemma vote_after_init_db d now u c ot vt :
  init_db d = (inr (), Database (Some ot) (Some vt)) →
  Bot.vote now u c d = Bot.vote now u c (Database (Some ot) (Some vt)).
Proof.
  intros Hinit. unfold Bot.vote at 1 2, bind at 1 5. rewrite Hinit.
  pose proof (init_db_twice d) as H2. rewrite Hinit in H2. cbn [snd] in H2.
  by rewrite H2.
Qed.

(** X16: [/vote] with a user id and a choice that fit the 64-bit INTEGER
    of sqlite never ends in an exception, whatever the file.  It records
    the vote, and thanks, exactly when the user has no vote and the choice
    exists; it answers "already voted" exactly when the user has a vote; in
    every other case no vote row changes.  The options are never changed,
    and only the two answers "already voted" and "thank you" are public. *)
Theorem vote_command_outcomes (d : database) (now : string) (u c : Z) :
  int64 u = true →
  int64 c = true →
  ∃ r d',
    Bot.vote now u c d = (inr r, d') ∧
    Commands.vote now u c d = (inr (Commands.render_reply r), d') ∧
    option_rows d' = option_rows d ∧
    (r = Bot.ThankYou ↔ vote_rows d !! u = None ∧ is_Some (option_rows d !! c)) ∧
    (r = Bot.AlreadyVoted ↔ is_Some (vote_rows d !! u)) ∧
    vote_rows d'
    = match r with
      | Bot.ThankYou => <[u := VoteRow c now]> (vote_rows d)
      | _ => vote_rows d
      end ∧
    (Commands.ephemeral (Commands.render_reply r) = false
     ↔ r = Bot.AlreadyVoted ∨ r = Bot.ThankYou).
Proof.
  intros Eu Ec.
  assert (∀ r, Commands.ephemeral (Commands.render_reply r) = false
               ↔ r = Bot.AlreadyVoted ∨ r = Bot.ThankYou) as Heph.
  { intros []; simpl; split; eauto; try done; by intros [|]. }
  destruct (init_db_tables d) as (ot & vt & Hinit & Ho & Hv & _).
  unfold Commands.vote, bind.
  rewrite (vote_after_init_db d now u c ot vt Hinit), vote_tables, Eu, Ec, <-Ho, <-Hv.
  destruct (vt_rows vt !! u) as [v|] eqn:Hu.
  - eexists _, _. split_and!; try reflexivity; try apply Heph.
    + split; [done|]. by intros [? _].
    + split; eauto.
  - destruct (bool_decide (is_Some (ot_rows ot !! c))) eqn:Hc.
    + apply bool_decide_eq_true in Hc.
      eexists _, _. split_and!; try reflexivity; try apply Heph.
      * done.
      * split; [done|]. by intros [? ?].
    + apply bool_decide_eq_false in Hc.
      eexists _, _. split_and!; try reflexivity; try apply Heph.
      * split; [|by intros [_ ?]]. by destruct (order_by_key _).
      * split; [|by intros [? ?]]. by destruct (order_by_key _).
      * by destruct (order_by_key _).
Qed.

Lemma order_by_key_nil {A} (m : gmap Z A) :
  order_by_key (map_to_list m) = [] ↔ m = ∅.
Proof.
  rewrite <-map_to_list_empty_iff. split.
  - intros E. apply Permutation_nil. rewrite <-E. apply order_by_key_perm.
  - intros E. by rewrite E.
Qed.

Lemma format_standings_not_fixed r rows total :
  Commands._format_standings (r :: rows) total ≠ Commands.NO_OPTIONS_USE_SETVOTE.
Proof.
  intros E. apply (f_equal line_feeds) in E.
  unfold Commands._format_standings in E.
  rewrite line_feeds_join in E by (by destruct (map _ (r :: rows))).
  rewrite !length_app, length_map in E. simpl length in E.
  change (line_feeds Commands.NO_OPTIONS_USE_SETVOTE) with 0%nat in E. lia.
Qed.

(** X17: [/checkvote] and [/publishvote] never end in an exception and send
    the same text, the first ephemerally and the second publicly.  On an
    installed store they change nothing and the text is
    [_format_standings] of the current standings and total, which is the
    "no options" text exactly when there is no option. *)
Theorem checkvote_and_publishvote_agree (d : database) :
  ∃ text d',
    Commands.checkvote d = (inr (Commands.Response text true), d') ∧
    Commands.publishvote d = (inr (Commands.Response text false), d') ∧
    init_db d = (inr (), d') ∧
    (installed d →
       d' = d ∧
       (∃ rows total,
          get_vote_standings d = (inr rows, d) ∧
          get_total_votes d = (inr total, d) ∧
          text = Commands._format_standings rows total) ∧
       (text = Commands.NO_OPTIONS_USE_SETVOTE ↔ option_rows d = ∅)).
Proof.
  destruct (init_db_tables d) as (ot & vt & Hinit & _ & _ & Hsame).
  set (d1 := Database (Some ot) (Some vt)) in *.
  assert (∃ rows, get_vote_standings d1 = (inr rows, d1)) as [rows Hrows]
    by (eexists; reflexivity).
  assert (∃ total, get_total_votes d1 = (inr total, d1)) as [total Htotal]
    by (eexists; reflexivity).
  unfold Commands.checkvote, Commands.publishvote, bind.
  rewrite Hinit, Hrows, Htotal.
  eexists _, _. split_and!; [reflexivity|reflexivity|reflexivity|].
  intros Hi. specialize (Hsame Hi). rewrite Hsame in Hrows, Htotal |- *.
  split; [done|]. split; [by eexists _, _|].
  destruct (installed_inv d Hi) as (opts & vts & ->).
  rewrite get_vote_standings_store in Hrows. injection Hrows as <-.
  rewrite option_rows_store, <-order_by_key_nil.
  destruct (order_by_key (map_to_list opts)) as [|x l].
  - done.
  - split; [|done]. intros E. exfalso. revert E.
    apply format_standings_not_fixed.
Qed.

Lemma checkvote_and_publishvote_agree_witness :
  installed sample_standings ∧
  (Commands.checkvote sample_standings).2 = sample_standings ∧
  (Commands.publishvote sample_standings).2 = sample_standings.
Proof.
  assert (installed sample_standings) as Hi by (split; reflexivity).
  split; [exact Hi|].
  destruct (checkvote_and_publishvote_agree sample_standings)
    as (text & d' & Hc & Hp & _ & Hinst).
  destruct (Hinst Hi) as (-> & _).
  split; [exact (f_equal snd Hc)|exact (f_equal snd Hp)].
Defined.

(** X18: [/clearvotes] never ends in an exception, whatever the file: it
    installs missing tables, removes every vote row, keeps the options (as
    its reply says) and answers ephemerally. *)
Theorem clearvotes_keeps_the_options (d : database) :
  ∃ d',
    Commands.clearvotes d
    = (inr (Commands.Response (py "Votes cleared. (Vote options were kept.)") true), d') ∧
    option_rows d' = option_rows d ∧
    vote_rows d' = ∅ ∧
    is_Some (tbl_vote_options d') ∧
    tbl_votes d' = Some (VotesTable SCHEMA_votes ∅) ∧
    (list_vote_options d').1 = (list_vote_options (init_db d).2).1.
Proof.
  destruct (init_db_tables d) as (ot & vt & Hinit & Ho & _ & _).
  unfold Commands.clearvotes, bind. rewrite Hinit, clear_votes_cases.
  cbn [tbl_vote_options ret].
  eexists. split; [reflexivity|]. split_and!.
  - exact Ho.
  - reflexivity.
  - by eexists.
  - reflexivity.
  - reflexivity.
Qed.

(** X19: [/showpoll] never ends in an exception and answers publicly.  With
    no option it sends the "no options" text; otherwise the header followed
    by exactly the rows of [list_vote_options], which is never that text.
    On an installed store the file is unchanged. *)
Theorem showpoll_lists_the_options (d : database) :
  ∃ text d',
    Commands.showpoll d = (inr (Commands.Response text false), d') ∧
    init_db d = (inr (), d') ∧
    (installed d → d' = d) ∧
    (option_rows d = ∅ → text = Commands.NO_OPTIONS_ADMIN) ∧
    (option_rows d ≠ ∅ →
       ∃ options,
         list_vote_options d' = (inr options, d') ∧
         text = py "Vote options:" ++ [LF; LF] ++ Commands.rendered options ∧
         text ≠ Commands.NO_OPTIONS_ADMIN).
Proof.
  destruct (init_db_tables d) as (ot & vt & Hinit & Ho & _ & Hsame).
  unfold Commands.showpoll, bind. rewrite Hinit.
  assert (list_vote_options (Database (Some ot) (Some vt))
          = (inr (order_by_key (map_to_list (ot_rows ot))),
             Database (Some ot) (Some vt))) as -> by reflexivity.
  rewrite <-Ho.
  destruct (order_by_key (map_to_list (ot_rows ot))) as [|x l] eqn:E.
  - apply order_by_key_nil in E.
    eexists _, _. split_and!; [reflexivity|reflexivity|exact Hsame|done|done].
  - assert (ot_rows ot ≠ ∅) as Hne.
    { intros H%order_by_key_nil. by rewrite H in E. }
    eexists _, _. split_and!; [reflexivity|reflexivity|exact Hsame|done|].
    intros _. exists (x :: l). split_and!; [|reflexivity|discriminate].
    unfold list_vote_options, with_connection, query, select_options.
    cbn [connect working durable tbl_vote_options]. by rewrite E.
Qed.

Lemma db_path_is_trimmed_witness :
  strip (py "  data/poll.db ") ≠ [] ∧
  Commands._db_path (Some (py "  data/poll.db ")) = py "data/poll.db".
Proof.
  assert (strip (py "  data/poll.db ") ≠ []) as Hne by (vm_compute; discriminate).
  split; [exact Hne|].
  rewrite (proj1 (proj2 (db_path_is_trimmed (Some (py "  data/poll.db "))))
             (py "  data/poll.db ") eq_refl Hne).
  reflexivity.
Defined.

Lemma vote_command_outcomes_witness :
  int64 7 = true ∧ int64 3 = true ∧
  vote_rows sample_voted !! 7 = None ∧
  is_Some (option_rows sample_voted !! 3) ∧
  (Bot.vote "2024-01-01 12:00:02" 7 3 sample_voted).1 = inr Bot.ThankYou.
Proof.
  assert (vote_rows sample_voted !! 7 = None) as Hu by reflexivity.
  assert (is_Some (option_rows sample_voted !! 3)) as Ho by (vm_compute; eauto).
  split; [reflexivity|]. split; [reflexivity|].
  split; [exact Hu|]. split; [exact Ho|].
  destruct (vote_command_outcomes sample_voted "2024-01-01 12:00:02" 7 3
              eq_refl eq_refl)
    as (r & d' & Hv & _ & _ & Hthanks & _).
  rewrite Hv. cbn [fst]. f_equal. apply Hthanks. by split.
Defined.

Lemma showpoll_lists_the_options_witness :
  installed sample_voted ∧
  option_rows sample_voted ≠ ∅ ∧
  (Commands.showpoll sample_voted).2 = sample_voted.
Proof.
  assert (installed sample_voted) as Hi by (split; reflexivity).
  split; [exact Hi|]. split; [vm_compute; discriminate|].
  destruct (showpoll_lists_the_options sample_voted) as (text & d' & Hs & _ & Hd & _).
  rewrite Hs. cbn [snd]. exact (Hd Hi).
Defined.

(** ** Arguments that sqlite cannot bind *)




(** X21: [/vote] ends in the [OverflowError] of sqlite when the user id does
    not fit the 64-bit INTEGER, and also when the user has no vote and the
    choice does not fit: [user_has_voted] and [option_exists] are called
    outside the [try] block.  Only [init_db] has then changed the file. *)
Theorem vote_command_overflow (d : database) (now : string) (u c : Z) :
  int64 u = false ∨ (vote_rows d !! u = None ∧ int64 c = false) →
  ∃ d',
    init_db d = (inr (), d') ∧
    Bot.vote now u c d = (inl E_overflow, d') ∧
    Commands.vote now u c d = (inl E_overflow, d').
Proof.
  intros Hcase.
  destruct (init_db_tables d) as (ot & vt & Hinit & _ & Hv & _).
  exists (Database (Some ot) (Some vt)).
  assert (Bot.vote now u c d = (inl E_overflow, Database (Some ot) (Some vt))) as Hb.
  { rewrite (vote_after_init_db d now u c ot vt Hinit), vote_tables, Hv.
    destruct Hcase as [->|[-> Hc]]; [done|].
    rewrite Hc. by destruct (int64 u). }
  split_and!; [done|done|].
  unfold Commands.vote, bind. by rewrite Hb.
Qed.

Lemma vote_command_overflow_witness :
  int64 9223372036854775808 = false ∧
  Bot.vote "2024-01-01 12:00:02" 9223372036854775808 1 sample_voted
  = (inl E_overflow, sample_voted) ∧
  vote_rows sample_voted !! 7 = None ∧
  (Commands.vote "2024-01-01 12:00:02" 7 9223372036854775808 sample_voted).1
  = inl E_overflow.
Proof.
  assert (int64 9223372036854775808 = false) as H64 by reflexivity.
  assert (vote_rows sample_voted !! 7 = None) as Hu by reflexivity.
  assert (init_db sample_voted = (inr (), sample_voted)) as Hinit by reflexivity.
  split; [exact H64|]. split; [|split; [exact Hu|]].
  - destruct (vote_command_overflow sample_voted "2024-01-01 12:00:02"
                9223372036854775808 1 (or_introl H64)) as (d' & Hi & Hb & _).
    rewrite Hinit in Hi. injection Hi as <-. exact Hb.
  - destruct (vote_command_overflow sample_voted "2024-01-01 12:00:02"
                7 9223372036854775808 (or_intror (conj Hu H64))) as (d' & _ & _ & Hc).
    exact (f_equal fst Hc).
Defined.
